(** * Message API: censorship pipeline, repository queries and service layer

    A shallow embedding of [services.py], [repositories.py], [models.py],
    [auth.py] and the message endpoint of [main.py], followed by the
    properties of the specification that hold (or fail) on it.

    Conventions of the embedding
    - a Python [str] is a [string]; its characters are the code points
      U+0000..U+00FF, one per [ascii]. The censorship pattern is taken
      a second time on sequences of code points ([Unicode]), where it
      behaves in a way of its own;
    - a Python [dict] with string keys is a [gmap string value];
    - a [datetime] is the reading of its calendar and clock fields (a
      [Z]), its [tzinfo] left out; the parser [datetime.fromisoformat] and
      the printer [datetime.isoformat] belong to the Python library and
      are parameters ([DatetimeLib]);
    - the table [messages] is a [gmap] from the primary key to the row;
      the queries are read as SQLite, the engine of the repository's
      tests, runs them;
    - a method that may raise and may touch the store is a function
      [S -> (Exception + A) * S]. *)

From Stdlib Require Import ZArith NArith Ascii String List Sorted Permutation.
From stdpp Require Import base option list sorting strings gmap fin_maps.
From Equations Require Import Equations.

Local Open Scope string_scope.
Local Open Scope Z_scope.

(** ** Characters and the [str] methods the code calls *)

Module Str.

Definition ord (c : ascii) : N := N_of_ascii c.

Definition between (lo hi : N) (c : ascii) : bool :=
  ((lo <=? ord c) && (ord c <=? hi))%N.

(** [str.isalnum] on one character below U+0100: letters, decimal digits
    and the other numeric characters of Latin-1. *)
Definition isalnum (c : ascii) : bool :=
  between 48 57 c || between 65 90 c || between 97 122 c
  || between 170 170 c || between 178 179 c || between 181 181 c
  || between 185 186 c || between 188 190 c || between 192 214 c
  || between 216 246 c || between 248 255 c.

(** [str.isspace] on one character below U+0100. *)
Definition isspace (c : ascii) : bool :=
  between 9 13 c || between 28 32 c || between 133 133 c || between 160 160 c.

(** [str.lower] on one character below U+0100. *)
Definition lower_char (c : ascii) : ascii :=
  if between 65 90 c || between 192 214 c || between 216 222 c
  then ascii_of_N (ord c + 32) else c.

Fixpoint lower (s : string) : string :=
  match s with
  | EmptyString => EmptyString
  | String c s' => String (lower_char c) (lower s')
  end.

Fixpoint lstrip (s : string) : string :=
  match s with
  | EmptyString => EmptyString
  | String c s' => if isspace c then lstrip s' else s
  end.

Fixpoint rstrip (s : string) : string :=
  match s with
  | EmptyString => EmptyString
  | String c s' =>
      match rstrip s' with
      | EmptyString => if isspace c then EmptyString else String c EmptyString
      | r => String c r
      end
  end.

(** [s.strip()] *)
Definition strip (s : string) : string := rstrip (lstrip s).

(** [s.endswith(suffix)] *)
Fixpoint endswith (s suffix : string) : bool :=
  String.eqb s suffix ||
  match s with
  | EmptyString => false
  | String _ s' => endswith s' suffix
  end.

Fixpoint take (n : nat) (s : string) : string :=
  match n, s with
  | S n', String c s' => String c (take n' s')
  | _, _ => EmptyString
  end.

Fixpoint drop (n : nat) (s : string) : string :=
  match n, s with
  | S n', String _ s' => drop n' s'
  | _, _ => s
  end.

Definition head (s : string) : option ascii := String.get 0 s.

Fixpoint last (s : string) : option ascii :=
  match s with
  | EmptyString => None
  | String c EmptyString => Some c
  | String _ s' => last s'
  end.

Lemma length_drop_le n s : (String.length (drop n s) <= String.length s)%nat.
Proof.
  revert n; induction s as [|c s IH]; intros [|n]; simpl; try lia.
  specialize (IH n); lia.
Qed.

(** A left-to-right scan for non-overlapping occurrences, as [re] and
    [str.replace] perform it. [find prev s] looks for an occurrence that
    starts at the head of [s], [prev] being the character before it, and
    answers its length. The scan copies one character where there is
    none and resumes after the occurrence where there is one. The
    patterns of this program have no empty occurrence; one would be
    passed over like no occurrence. *)
Inductive piece :=
| Lit (c : ascii)
| Hit (m : string).

Equations? pieces (find : option ascii -> string -> option nat)
    (prev : option ascii) (s : string) : list piece
    by wf (String.length s) lt :=
  pieces find prev EmptyString := [];
  pieces find prev (String c s') with find prev (String c s') := {
    | Some (S k) :=
        Hit (String c (take k s'))
          :: pieces find (last (String c (take k s'))) (drop k s');
    | _ := Lit c :: pieces find (Some c) s' }.
Proof.
  all: try (pose proof (length_drop_le k s')); simpl; lia.
Qed.

(** The occurrences, in order of appearance. *)
Fixpoint hits (ps : list piece) : list string :=
  match ps with
  | [] => []
  | Lit _ :: ps' => hits ps'
  | Hit m :: ps' => m :: hits ps'
  end.

(** The text with each occurrence replaced by [repl]. *)
Fixpoint substitute (repl : string) (ps : list piece) : string :=
  match ps with
  | [] => EmptyString
  | Lit c :: ps' => String c (substitute repl ps')
  | Hit _ :: ps' => repl ++ substitute repl ps'
  end.

(** [s.startswith(p)] *)
Fixpoint startswith (s p : string) : bool :=
  match p, s with
  | EmptyString, _ => true
  | String a p', String b s' => Ascii.eqb a b && startswith s' p'
  | String _ _, EmptyString => false
  end.

(** [sub in s] *)
Fixpoint contains (s sub : string) : bool :=
  startswith s sub ||
  match s with
  | EmptyString => false
  | String _ s' => contains s' sub
  end.

Definition find_literal (old : string) (_ : option ascii) (s : string)
    : option nat :=
  if startswith s old then Some (String.length old) else None.

(** [s.replace(old, new)], [old] not empty. *)
Definition replace (old new s : string) : string :=
  substitute new (pieces (find_literal old) None s).

End Str.

(** ** The fragment of [re] behind the censorship pattern *)

Module Re.
Import Str.

(** [\w]: alphanumeric or underscore. *)
Definition is_word (c : ascii) : bool := isalnum c || between 95 95 c.

Definition is_word_at (c : option ascii) : bool :=
  match c with Some c => is_word c | None => false end.

(** [\b] between [prev] and [next]; the ends of the text count as
    non-word characters. *)
Definition boundary (prev next : option ascii) : bool :=
  xorb (is_word_at prev) (is_word_at next).

(** A literal under [re.IGNORECASE], matched at the head of [s]: the
    last character before the position reached, and the text from there
    on. *)
Fixpoint match_literal (w : string) (prev : option ascii) (s : string)
    : option (option ascii * string) :=
  match w with
  | EmptyString => Some (prev, s)
  | String a w' =>
      match s with
      | String b s' =>
          if Ascii.eqb (lower_char a) (lower_char b)
          then match_literal w' (Some b) s'
          else None
      | EmptyString => None
      end
  end.

(** [(w1|...|wn)\b] tried at the head of [s]: the alternatives in order,
    each followed by the closing [\b]; the first that goes through wins
    and its length is the length of the occurrence. *)
Fixpoint match_alternatives (alts : list string) (prev : option ascii)
    (s : string) : option nat :=
  match alts with
  | [] => None
  | w :: alts' =>
      match match_literal w prev s with
      | Some (before, rest) =>
          if boundary before (head rest)
          then Some (String.length w)
          else match_alternatives alts' prev s
      | None => match_alternatives alts' prev s
      end
  end.

(** The compiled pattern [\b(w1|...|wn)\b] with [re.IGNORECASE], the
    [wi] being the escaped (hence literal) words. *)
Definition find_word (alts : list string) (prev : option ascii) (s : string)
    : option nat :=
  if boundary prev (head s) then match_alternatives alts prev s else None.

(** [pattern.findall(s)] and [pattern.sub(repl, s)] *)
Definition findall (alts : list string) (s : string) : list string :=
  hits (pieces (find_word alts) None s).

Definition sub (alts : list string) (repl s : string) : string :=
  substitute repl (pieces (find_word alts) None s).

End Re.

(** ** Values, exceptions and effects *)

(** A [datetime] as a [DateTime] column keeps it: the reading of its
    calendar and clock fields, counted in seconds. The [tzinfo] an aware
    datetime carries is not part of the model, and it is not part of a
    stored row either: the column writes the fields down and the value
    read back is naive. *)
Definition datetime : Type := Z.

(** The [datetime] library functions behind the code: the ISO parser,
    which raises [ValueError] on text it does not accept, the ISO printer,
    and the text the [sqlite3] driver binds a datetime as (its default
    adapter, [isoformat(" ")]) where the column is not a [DateTime]. That
    text ends with the UTC offset of a datetime that has one; with
    [tzinfo] left out the model does not tell which text it is, and
    nothing below depends on it. *)
Class DatetimeLib := {
  fromisoformat : string -> option datetime;
  isoformat : datetime -> string;
  adapt_datetime : datetime -> string
}.

(** The metadata object [{"length": ..., "bad_words": [...]}]. *)
Module Metadata.
Record t := {
  length : nat;
  bad_words : list string
}.
End Metadata.

(** The Python objects found in a message dictionary. *)
Inductive value :=
| VNone
| VStr (s : string)
| VDatetime (t : datetime)
| VMetadata (m : Metadata.t).

Abbreviation dict := (gmap string value).

(** The exceptions that occur; their message texts are left out.
    [IntegrityError] is SQLAlchemy's for a violated constraint, and
    [StatementError] stands for the other errors it wraps around a
    failing statement. *)
Inductive Exception :=
| ValueError
| TypeError
| KeyError (key : string)
| ValidationError
| IntegrityError
| StatementError
| OverflowError
| InvalidRequestError
| HTTPException (status_code : Z).

(** A method over a store of type [S]: it returns or raises, and leaves a
    store behind. *)
Definition M (S A : Type) : Type := S -> (Exception + A) * S.

Definition ret {S A} (a : A) : M S A := fun st => (inr a, st).
Definition raise {S A} (e : Exception) : M S A := fun st => (inl e, st).
Definition bind {S A B} (m : M S A) (k : A -> M S B) : M S B :=
  fun st =>
    match m st with
    | (inr a, st') => k a st'
    | (inl e, st') => (inl e, st')
    end.
(** [try: m except Exception as e: h e] *)
Definition try_except {S A} (m : M S A) (h : Exception -> M S A) : M S A :=
  fun st =>
    match m st with
    | (inl e, st') => h e st'
    | r => r
    end.
(** An expression that may raise but does not touch the store. *)
Definition lift {S A} (r : Exception + A) : M S A := fun st => (r, st).

Notation "x <- m ;; k" := (bind m (fun x => k))
  (at level 100, m at next level, right associativity).

(** ** models.py *)

Module Models.

(** A row of the table [messages]. [message_id] is the primary key; the
    other columns are nullable. *)
Record MessageORM := {
  message_id : string;
  session_id : option string;
  content : option string;
  timestamp : option datetime;
  sender : option string;
  processed_at : option datetime
}.

Section to_dict.
Context `{DatetimeLib}.

Definition iso_or_none (t : option datetime) : value :=
  match t with
  | Some t => VStr (isoformat t)
  | None => VNone
  end.

Definition str_or_none (s : option string) : value :=
  match s with
  | Some s => VStr s
  | None => VNone
  end.

Definition to_dict (self : MessageORM) : dict :=
  <["processed_at" := iso_or_none (processed_at self)]>
  (<["sender" := str_or_none (sender self)]>
  (<["timestamp" := iso_or_none (timestamp self)]>
  (<["content" := str_or_none (content self)]>
  (<["session_id" := str_or_none (session_id self)]>
  (<["message_id" := VStr (message_id self)]> ∅))))).
End to_dict.

(** The request model. Its fields share their names with the columns,
    hence the prefix. *)
Record MessageIn := {
  in_message_id : string;
  in_session_id : string;
  in_content : string;
  in_timestamp : datetime;
  in_sender : string
}.

Definition validate_sender (v : string) : Exception + string :=
  if bool_decide (v ∈ ({["user"; "system"]} : gset string))
  then inr v
  else inl ValidationError.

(** [MessageIn(message_id=..., ...)]: the fields arrive typed, the field
    validator runs on [sender]. *)
Definition MessageIn_init (message_id session_id content : string)
    (timestamp : datetime) (sender : string) : Exception + MessageIn :=
  match validate_sender sender with
  | inl e => inl e
  | inr v =>
      inr {| in_message_id := message_id; in_session_id := session_id;
             in_content := content; in_timestamp := timestamp;
             in_sender := v |}
  end.

Definition model_dump (m : MessageIn) : dict :=
  <["sender" := VStr (in_sender m)]>
  (<["timestamp" := VDatetime (in_timestamp m)]>
  (<["content" := VStr (in_content m)]>
  (<["session_id" := VStr (in_session_id m)]>
  (<["message_id" := VStr (in_message_id m)]> ∅)))).

End Models.

(** ** repositories.py *)

Module Repositories.
Import Models.

(** What the service expects of the repository object it is given. *)
Record Repository (S : Type) := {
  repo_save : dict -> M S MessageORM;
  repo_get_by_session :
    string -> Z -> Z -> option string -> M S (list MessageORM);
  repo_search_messages : string -> string -> Z -> Z -> M S (list MessageORM)
}.
Arguments repo_save {S}.
Arguments repo_get_by_session {S}.
Arguments repo_search_messages {S}.

(** The table [messages] as the database session sees it: the rows under
    their primary key, as [MessageORM] declares them. The module that sets
    the engine up is not part of the sources read here; what the queries
    do follows the SQL they are rendered to. *)
Abbreviation Session := (gmap string MessageORM).

(** [d.get(key)] and [d[key]] *)
Definition get (d : dict) (key : string) : value := default VNone (d !! key).

Definition getitem (d : dict) (key : string) : Exception + value :=
  match d !! key with
  | Some v => inr v
  | None => inl (KeyError key)
  end.

Section with_datetime.
Context `{DatetimeLib}.

Definition _parse_iso_to_dt (value : value) : Exception + option datetime :=
  match value with
  | VNone => inr None
  | VDatetime t => inr (Some t)
  | VStr s =>
      let s := if Str.endswith s "Z" then Str.replace "Z" "+00:00" s else s in
      match fromisoformat s with
      | Some t => inr (Some t)
      | None => inl ValueError
      end
  | VMetadata _ => inl TypeError
  end.
End with_datetime.

(** The object [MessageORM(...)] before the flush: the column values as
    they were passed. *)
Record pending := {
  p_message_id : value;
  p_session_id : value;
  p_content : value;
  p_timestamp : option datetime;
  p_sender : value;
  p_processed_at : option datetime
}.

Section with_datetime.
Context `{DatetimeLib}.

(** Binding a value to a [String] column. The column type hands the
    value to the driver as it is: a [str] is stored, [None] is NULL, a
    datetime is stored as the text the driver adapts it to, and a
    dictionary is a value the driver cannot bind. *)
Definition bind_string (v : value) : Exception + option string :=
  match v with
  | VNone => inr None
  | VStr s => inr (Some s)
  | VDatetime t => inr (Some (adapt_datetime t))
  | VMetadata _ => inl StatementError
  end.

(** The parameters of the INSERT. The primary key is NOT NULL: with no
    identifier the statement fails on the constraint. *)
Definition bind_row (obj : pending) : Exception + MessageORM :=
  match bind_string (p_message_id obj), bind_string (p_session_id obj),
        bind_string (p_content obj), bind_string (p_sender obj) with
  | inr (Some k), inr sid, inr c, inr snd =>
      inr {| message_id := k; session_id := sid; content := c;
             timestamp := p_timestamp obj; sender := snd;
             processed_at := p_processed_at obj |}
  | inr None, inr _, inr _, inr _ => inl IntegrityError
  | _, _, _, _ => inl StatementError
  end.

(** [db.add(obj); db.commit()]: the INSERT, refused by the primary key
    when the identifier is taken. A refused commit leaves the table as
    it was. The store of the model is the table. The session object of
    the code is more than that: after a refused commit it answers
    [PendingRollbackError] until it is rolled back. Every request of
    main.py builds its repository on a session of its own, and what one
    session object does after a failure is outside the model. *)
Definition add_commit (obj : pending) : M Session MessageORM :=
  fun db =>
    match bind_row obj with
    | inl e => (inl e, db)
    | inr row =>
        match db !! message_id row with
        | Some _ => (inl IntegrityError, db)
        | None => (inr row, <[message_id row := row]> db)
        end
    end.

End with_datetime.

(** [db.refresh(obj)]: the row read back by its key. *)
Definition refresh (row : MessageORM) : M Session MessageORM :=
  fun db =>
    match db !! message_id row with
    | Some r => (inr r, db)
    | None => (inl InvalidRequestError, db)
    end.

Section with_datetime.
Context `{DatetimeLib}.

Definition save (message_data : dict) : M Session MessageORM :=
  ts <- lift (_parse_iso_to_dt (get message_data "timestamp")) ;;
  processed_at <- lift (_parse_iso_to_dt (get message_data "processed_at")) ;;
  mid <- lift (getitem message_data "message_id") ;;
  sid <- lift (getitem message_data "session_id") ;;
  c <- lift (getitem message_data "content") ;;
  snd <- lift (getitem message_data "sender") ;;
  obj <- add_commit {| p_message_id := mid; p_session_id := sid;
                       p_content := c; p_timestamp := ts;
                       p_sender := snd; p_processed_at := processed_at |} ;;
  refresh obj.
End with_datetime.

(** *** Queries *)

(** The rows of the table, in the order a scan meets them. *)
Definition rows (db : Session) : list MessageORM := (map_to_list db).*2.

(** [ORDER BY timestamp ASC]; NULL sorts first. *)
Definition ts_le (a b : option datetime) : Prop :=
  match a, b with
  | None, _ => True
  | Some _, None => False
  | Some x, Some y => x <= y
  end.

Definition by_timestamp (r1 r2 : MessageORM) : Prop :=
  ts_le (timestamp r1) (timestamp r2).

#[global] Instance ts_le_dec : RelDecision ts_le.
Proof. intros [x|] [y|]; simpl; apply _. Defined.

#[global] Instance by_timestamp_dec : RelDecision by_timestamp.
Proof. intros r1 r2. unfold by_timestamp. apply _. Defined.

Definition order_by_timestamp (q : list MessageORM) : list MessageORM :=
  merge_sort by_timestamp q.

(** [OFFSET n] and [LIMIT n]. A negative offset skips nothing and a
    negative limit does not bound the result, as in SQLite, the engine of
    the repository's tests; an offset that reaches the end leaves
    nothing, and a limit that is not below the number of rows bounds
    nothing. *)
Definition sql_offset (n : Z) (q : list MessageORM) : list MessageORM :=
  if Z.of_nat (length q) <=? n then [] else drop (Z.to_nat n) q.

Definition sql_limit (n : Z) (q : list MessageORM) : list MessageORM :=
  if (n <? 0) || (Z.of_nat (length q) <=? n) then q else take (Z.to_nat n) q.

(** An [int] bound to a parameter of the statement. SQLite keeps a signed
    64-bit integer; the driver raises [OverflowError] for an [int] outside
    it, before the statement runs. *)
Definition bind_integer (n : Z) : Exception + Z :=
  if (- 2 ^ 63 <=? n) && (n <? 2 ^ 63) then inr n else inl OverflowError.

(** [query.offset(offset).limit(limit).all()]: both numbers are bound
    parameters of the SELECT. *)
Definition offset_limit_all (offset limit : Z) (q : list MessageORM)
    : Exception + list MessageORM :=
  match bind_integer limit, bind_integer offset with
  | inr limit, inr offset => inr (sql_limit limit (sql_offset offset q))
  | _, _ => inl OverflowError
  end.

(** Python's truth value of a [str | None]. *)
Definition truthy (s : option string) : bool :=
  match s with
  | Some s => negb (String.eqb s "")
  | None => false
  end.

Definition get_by_session (session_id : string) (limit offset : Z)
    (sender : option string) : M Session (list MessageORM) :=
  fun db =>
    let query :=
      filter (fun r => Models.session_id r = Some session_id) (rows db) in
    let query :=
      if truthy sender
      then filter (fun r => Models.sender r = sender) query
      else query in
    (offset_limit_all offset limit (order_by_timestamp query), db).

(** The comparison behind [LIKE]: [%] stands for any run of characters,
    [_] for any one character, every other character for itself. *)
Fixpoint pattern_compare (pattern text : string) : bool :=
  match pattern with
  | EmptyString =>
      match text with EmptyString => true | _ => false end
  | String p pattern' =>
      if Ascii.eqb p "%" then
        (fix any (t : string) : bool :=
           pattern_compare pattern' t
           || match t with
              | EmptyString => false
              | String _ t' => any t'
              end) text
      else
        match text with
        | EmptyString => false
        | String c text' =>
            (Ascii.eqb p "_" || Ascii.eqb p c)
            && pattern_compare pattern' text'
        end
  end.

(** A text as the comparison reads it: up to its first U+0000. *)
Fixpoint c_string (s : string) : string :=
  match s with
  | EmptyString => EmptyString
  | String c s' =>
      if Ascii.eqb c "000" then EmptyString else String c (c_string s')
  end.

(** [LIKE]. SQLite stores and returns a text with U+0000 in full, but
    [LIKE] reads its two operands as far as their first U+0000. *)
Definition like (pattern text : string) : bool :=
  pattern_compare (c_string pattern) (c_string text).

(** SQL [lower()]: the letters A-Z only. *)
Definition sql_lower_char (c : ascii) : ascii :=
  if Str.between 65 90 c then ascii_of_N (Str.ord c + 32) else c.

Fixpoint sql_lower (s : string) : string :=
  match s with
  | EmptyString => EmptyString
  | String c s' => String (sql_lower_char c) (sql_lower s')
  end.

(** [column.ilike(pattern)], rendered [lower(column) LIKE lower(pattern)];
    a NULL column matches nothing. *)
Definition ilike (column : option string) (pattern : string) : bool :=
  match column with
  | Some text => like (sql_lower pattern) (sql_lower text)
  | None => false
  end.

(** The bytes of a text in UTF-8: one for a code point below U+0080, two
    for the others up to U+00FF. *)
Fixpoint utf8_bytes (s : string) : Z :=
  match s with
  | EmptyString => 0
  | String c s' => (if Str.between 0 127 c then 1 else 2) + utf8_bytes s'
  end.

(** SQLite refuses a [LIKE] pattern of more than 50000 bytes, its
    default bound, with the error "LIKE or GLOB pattern too complex". The
    pattern is measured in full, whatever it holds, each time [LIKE] is
    evaluated: once there is a row of the session to test, also one whose
    content is NULL, unless the limit is 0 and no row is looked at. *)
Definition like_too_complex (pattern : string) : bool :=
  50000 <? utf8_bytes (sql_lower pattern).

Definition evaluates_like (session_id : string) (limit : Z) (db : Session)
    : bool :=
  negb (limit =? 0)
  && bool_decide
       (Exists (fun r => Models.session_id r = Some session_id) (rows db)).

Definition search_messages (session_id query : string) (limit offset : Z)
    : M Session (list MessageORM) :=
  fun db =>
    let results :=
      filter (fun r => Models.session_id r = Some session_id
                       /\ ilike (Models.content r) ("%" ++ query ++ "%") = true)
             (rows db) in
    match offset_limit_all offset limit (order_by_timestamp results) with
    | inl e => (inl e, db)
    | inr page =>
        if like_too_complex ("%" ++ query ++ "%")
           && evaluates_like session_id limit db
        then (inl StatementError, db)
        else (inr page, db)
    end.

Definition MessageRepository `{DatetimeLib} : Repository Session := {|
  repo_save := save;
  repo_get_by_session := get_by_session;
  repo_search_messages := search_messages
|}.

End Repositories.

(** ** services.py *)

Module Services.
Import Models Repositories.

(** [self.bad_words] *)
Definition bad_words : gset string := {["tonto"; "idiota"]}.

(** A message as the service receives it: a request model or a plain
    dictionary. *)
Inductive message :=
| Model (m : MessageIn)
| Dict (d : dict).

Definition _ensure_dict (message : message) : dict :=
  match message with
  | Model m => model_dump m
  | Dict d => d
  end.

(** The locals of [process_message]. The pattern is built from the words
    of [self.bad_words] in the order [words] in which the set yields
    them. *)
Definition found (words : list string) (original : string) : gset string :=
  list_to_set (Str.lower <$> Re.findall words original).

Definition censored (words : list string) (original : string) : string :=
  Re.sub words "***" original.

Definition metadata (words : list string) (original : string) : Metadata.t :=
  {| Metadata.length := String.length original;
     Metadata.bad_words :=
       merge_sort String.le (elements (found words original)) |}.

(** [process_message], [now] being the reading of the clock. A [content]
    that is not a [str] makes [findall] raise [TypeError]. *)
Definition process_message_in (words : list string) (now : datetime)
    (message : message) : Exception + dict :=
  let data := _ensure_dict message in
  match default (VStr "") (data !! "content") with
  | VStr original =>
      inr (<["processed_at" := VDatetime now]>
           (<["metadata" := VMetadata (metadata words original)]>
           (<["content" := VStr (censored words original)]> data)))
  | _ => inl TypeError
  end.

Definition process_message : datetime -> message -> Exception + dict :=
  process_message_in (elements bad_words).

Section service.
Context {S : Type} (repository : Repository S).

Definition save_message (now : datetime) (message_data : message)
    : M S MessageORM :=
  let md := _ensure_dict message_data in
  processed <- lift (process_message now (Dict md)) ;;
  repo_save repository processed.

Definition get_messages (session_id : string) (limit offset : Z)
    (sender : option string) : M S (list MessageORM) :=
  repo_get_by_session repository session_id limit offset sender.

Definition search_messages (session_id query : string) (limit offset : Z)
    : M S (list MessageORM) :=
  if String.eqb query "" || (String.length (Str.strip query) <? 2)%nat
  then raise ValueError
  else repo_search_messages repository session_id query limit offset.
End service.

End Services.

(** ** The censorship pattern on every [str]

    The modules above keep to the characters up to U+00FF. Python's
    [str], [re] and [len] work on code points, and [re.IGNORECASE] pairs
    letters across U+00FF. This module takes the locals of
    [process_message] again on sequences of code points. Up to U+017F the
    tables of the Unicode database are written out; from U+0180 on they
    are parameters. *)

Module Unicode.

Definition text : Type := list N.

(** The code points of a text of the modules above. *)
Definition encode (s : string) : text := N_of_ascii <$> list_ascii_of_string s.

(** What the interpreter's Unicode database says from U+0180 on:
    [str.isalnum] of a character, the simple lower-case mapping and the
    cased characters as [re] reads them ([_sre.unicode_tolower],
    [_sre.unicode_iscased]), the other characters that [re] counts to the
    case class of a lower-case letter, and [str.lower] of a text, which
    past the table is not taken character by character. *)
Class Database := {
  db_isalnum : N -> bool;
  db_tolower : N -> N;
  db_iscased : N -> bool;
  db_extra_cases : N -> list N;
  db_lower : text -> text
}.

Definition in_table (c : N) : bool := (c <? 384)%N.

Definition between (lo hi c : N) : bool := ((lo <=? c) && (c <=? hi))%N.

Inductive piece :=
| Lit (c : N)
| Hit (m : text).

(** The scan of [Str.pieces], on code points. *)
Equations? pieces (find : option N -> text -> option nat)
    (prev : option N) (s : text) : list piece
    by wf (length s) lt :=
  pieces find prev [] := [];
  pieces find prev (c :: s') with find prev (c :: s') := {
    | Some (S k) :=
        Hit (c :: take k s')
          :: pieces find (last (c :: take k s')) (drop k s');
    | _ := Lit c :: pieces find (Some c) s' }.
Proof.
  all: rewrite ?length_drop; simpl; lia.
Qed.

(** The code points of a piece of [Str.pieces]. *)
Definition encode_piece (p : Str.piece) : piece :=
  match p with
  | Str.Lit c => Lit (N_of_ascii c)
  | Str.Hit m => Hit (encode m)
  end.

Fixpoint hits (ps : list piece) : list text :=
  match ps with
  | [] => []
  | Lit _ :: ps' => hits ps'
  | Hit m :: ps' => m :: hits ps'
  end.

Fixpoint substitute (repl : text) (ps : list piece) : text :=
  match ps with
  | [] => []
  | Lit c :: ps' => c :: substitute repl ps'
  | Hit _ :: ps' => (repl ++ substitute repl ps')%list
  end.

(** The order of [str]: by code point, the shorter text first when it
    starts the longer. *)
Fixpoint text_le (a b : text) : Prop :=
  match a, b with
  | [], _ => True
  | _ :: _, [] => False
  | x :: a', y :: b' => (x < y)%N \/ (x = y /\ text_le a' b')
  end.

#[global] Instance text_le_dec : RelDecision text_le.
Proof.
  intros a. induction a as [|x a IH]; intros [|y b]; simpl; apply _.
Defined.

Section with_database.
Context `{Database}.

Definition isalnum (c : N) : bool :=
  if in_table c then
    between 48 57 c || between 65 90 c || between 97 122 c
    || between 170 170 c || between 178 179 c || between 181 181 c
    || between 185 186 c || between 188 190 c || between 192 214 c
    || between 216 246 c || between 248 383 c
  else db_isalnum c.

(** [\w] *)
Definition is_word (c : N) : bool := isalnum c || (c =? 95)%N.

Definition tolower (c : N) : N :=
  if in_table c then
    if between 65 90 c || between 192 214 c || between 216 222 c
    then (c + 32)%N
    else if (c =? 304)%N then 105%N
    else if (c =? 376)%N then 255%N
    else if (between 256 303 c || between 306 311 c || between 330 375 c)
            && N.even c
    then (c + 1)%N
    else if (between 313 328 c || between 377 382 c) && N.odd c
    then (c + 1)%N
    else c
  else db_tolower c.

Definition iscased (c : N) : bool :=
  if in_table c then
    between 65 90 c || between 97 122 c || between 181 181 c
    || between 192 214 c || between 216 246 c || between 248 311 c
    || between 313 383 c
  else db_iscased c.

(** [re]'s table of extra cases: the dotless i beside i, the long s
    beside s, the Greek mu beside the micro sign. *)
Definition extra_cases (lo : N) : list N :=
  if in_table lo then
    if (lo =? 105)%N then [305%N]
    else if (lo =? 305)%N then [105%N]
    else if (lo =? 115)%N then [383%N]
    else if (lo =? 383)%N then [115%N]
    else if (lo =? 181)%N then [956%N]
    else []
  else db_extra_cases lo.

(** [str.lower] of one character of the table: the simple mapping but
    for U+0130, which becomes i followed by U+0307. *)
Definition lower_char (c : N) : text :=
  if (c =? 304)%N then [105%N; 775%N] else [tolower c].

Definition lower (s : text) : text :=
  if forallb in_table s then s ≫= lower_char else db_lower s.

(** A literal character [p] of the pattern against the character [c]
    under [re.IGNORECASE]: a cased [p] is compiled to its lower case and
    the extra cases of that, and [c] is lowered before it is compared;
    a [p] that is not cased matches itself. *)
Definition match_char (p c : N) : bool :=
  if iscased p
  then (tolower c =? tolower p)%N
       || existsb (N.eqb (tolower c)) (extra_cases (tolower p))
  else (c =? p)%N.

Definition is_word_at (c : option N) : bool :=
  match c with Some c => is_word c | None => false end.

Definition boundary (prev next : option N) : bool :=
  xorb (is_word_at prev) (is_word_at next).

Fixpoint match_literal (w : text) (prev : option N) (s : text)
    : option (option N * text) :=
  match w with
  | [] => Some (prev, s)
  | a :: w' =>
      match s with
      | b :: s' =>
          if match_char a b then match_literal w' (Some b) s' else None
      | [] => None
      end
  end.

Fixpoint match_alternatives (alts : list text) (prev : option N) (s : text)
    : option nat :=
  match alts with
  | [] => None
  | w :: alts' =>
      match match_literal w prev s with
      | Some (before, rest) =>
          if boundary before (head rest)
          then Some (length w)
          else match_alternatives alts' prev s
      | None => match_alternatives alts' prev s
      end
  end.

Definition find_word (alts : list text) (prev : option N) (s : text)
    : option nat :=
  if boundary prev (head s) then match_alternatives alts prev s else None.

Definition findall (alts : list text) (s : text) : list text :=
  hits (pieces (find_word alts) None s).

Definition sub (alts : list text) (repl s : text) : text :=
  substitute repl (pieces (find_word alts) None s).

(** The locals of [process_message]: [found], [censored], and the two
    entries of [metadata]. *)
Definition found (words : list text) (original : text) : gset text :=
  list_to_set (lower <$> findall words original).

Definition censored (words : list text) (original : text) : text :=
  sub words (encode "***") original.

Definition metadata_length (original : text) : nat := length original.

Definition metadata_bad_words (words : list text) (original : text)
    : list text :=
  merge_sort text_le (elements (found words original)).

End with_database.

End Unicode.

(** ** auth.py and the message endpoint of main.py *)

Module Main.
Import Models Repositories Services.

Definition EXPECTED_API_KEY : string := "mi-api-key-secreta".

Definition require_api_key (x_api_key : option string) : Exception + string :=
  match x_api_key with
  | None => inl (HTTPException 401)
  | Some k =>
      if String.eqb k EXPECTED_API_KEY then inr k else inl (HTTPException 403)
  end.

Section with_datetime.
Context `{DatetimeLib}.

(** The body of the handler, run once the request has passed the checks. *)
Definition create_message (now : datetime) (message : MessageIn)
    : M Session dict :=
  try_except
    (saved <- save_message MessageRepository now (Model message) ;;
     ret (to_dict saved))
    (fun e =>
       match e with
       | IntegrityError => raise (HTTPException 400)
       | _ => raise (HTTPException 500)
       end).

(** [POST /api/messages]: the key is checked, the body becomes a
    [MessageIn], and only then does the handler run. *)
Definition post_message (now : datetime) (x_api_key : option string)
    (message_id session_id content : string) (timestamp : datetime)
    (sender : string) : M Session dict :=
  _ <- lift (require_api_key x_api_key) ;;
  message <- lift (MessageIn_init message_id session_id content timestamp
                     sender) ;;
  create_message now message.
End with_datetime.

End Main.

(** ** The notions of the specification *)

Module Spec.
Import Models Repositories Services.

(** The rows a listing of a session is about: those of the session and,
    when a sender that is not empty is given, of that sender. *)
Definition listed (session_id : string) (sender : option string)
    (r : MessageORM) : Prop :=
  Models.session_id r = Some session_id
  /\ match sender with
     | Some s => s = "" \/ Models.sender r = Some s
     | None => True
     end.

#[global] Instance listed_dec session_id sender r :
  Decision (listed session_id sender r).
Proof. unfold listed. destruct sender; apply _. Defined.

(** The rows of a session whose sender equals a given value. *)
Definition sent_by (session_id sender : string) (r : MessageORM) : Prop :=
  Models.session_id r = Some session_id /\ Models.sender r = Some sender.

(** The full sequence of the rows that satisfy [P], ordered by
    timestamp. *)
Definition ordered (P : MessageORM -> Prop) `{!forall r, Decision (P r)}
    (db : Session) : list MessageORM :=
  merge_sort by_timestamp (filter P (rows db)).

(** A text cut into its words, the maximal runs of word characters, and
    the characters between them. *)
Inductive token :=
| Word (w : string)
| Sep (c : ascii).

Fixpoint tokenize (s : string) : list token :=
  match s with
  | EmptyString => []
  | String c s' =>
      if Re.is_word c then
        match tokenize s' with
        | Word w :: ts => Word (String c w) :: ts
        | ts => Word (String c EmptyString) :: ts
        end
      else Sep c :: tokenize s'
  end.

(** A word is forbidden when, lower-cased, it is one of the bad words. *)
Definition forbidden (w : string) : Prop := Str.lower w ∈ Services.bad_words.

(** The censored text: each forbidden word gives way to the mask, all
    else stays. *)
Definition censor_token (t : token) : string :=
  match t with
  | Word w => if decide (forbidden w) then "***" else w
  | Sep c => String c EmptyString
  end.

Definition censor (s : string) : string :=
  foldr String.append EmptyString (censor_token <$> tokenize s).

(** The text a list of tokens spells. *)
Definition token_text (t : token) : string :=
  match t with
  | Word w => w
  | Sep c => String c EmptyString
  end.

Definition text (ts : list token) : string :=
  foldr String.append EmptyString (token_text <$> ts).

Fixpoint all_word (s : string) : bool :=
  match s with
  | EmptyString => true
  | String c s' => Re.is_word c && all_word s'
  end.

(** Tokens are well cut when each word is a non-empty run of word
    characters that no word follows at once, and no separator is a word
    character. *)
Fixpoint well_cut (ts : list token) : Prop :=
  match ts with
  | [] => True
  | Sep c :: ts' => Re.is_word c = false /\ well_cut ts'
  | Word w :: ts' =>
      w <> EmptyString /\ all_word w = true
      /\ match ts' with Word _ :: _ => False | _ => True end
      /\ well_cut ts'
  end.

(** An alternative of the pattern is plain when it is a non-empty run of
    word characters; [hit alts w] tells whether the word [w] is one of
    the alternatives, case set aside. *)
Definition plain (a : string) : Prop := a <> EmptyString /\ all_word a = true.

Definition hit (alts : list string) (w : string) : bool :=
  existsb (fun a => String.eqb (Str.lower a) (Str.lower w)) alts.

(** The pieces a scan is to cut the tokens into when [hit] tells the
    words to find: a found word is one occurrence, every other character
    is copied. *)
Fixpoint lits (s : string) : list Str.piece :=
  match s with
  | EmptyString => []
  | String c s' => Str.Lit c :: lits s'
  end.

Definition scanned (hit : string -> bool) (ts : list token) : list Str.piece :=
  t ← ts;
  match t with
  | Word w => if hit w then [Str.Hit w] else lits w
  | Sep c => [Str.Lit c]
  end.

(** [text] holds [query] as a substring, the case of the letters A-Z
    set aside. *)
Definition icontains (text query : string) : bool :=
  Str.contains (sql_lower text) (sql_lower query).

(** The rows of a session whose content holds the query. *)
Definition holds (session_id query : string) (r : MessageORM) : Prop :=
  Models.session_id r = Some session_id
  /\ match Models.content r with
     | Some text => icontains text query = true
     | None => False
     end.

#[global] Instance holds_dec session_id query r :
  Decision (holds session_id query r).
Proof. unfold holds. destruct (Models.content r); apply _. Defined.

(** The slice [[O, O+L)] of a sequence. *)
Definition slice {A} (O L : Z) (l : list A) : list A :=
  take (Z.to_nat L) (drop (Z.to_nat O) l).

End Spec.

(** ** The other endpoints of main.py *)

Module Endpoints.
Import Models Repositories.

(** [Query(..., min_length=n)] *)
Definition min_length (n : nat) (q : string) : Exception + string :=
  if (String.length q <? n)%nat then inl ValidationError else inr q.

Section with_datetime.
Context `{DatetimeLib}.

(** The handlers. What they return is the list under "results". *)
Definition get_messages (session_id : string) (limit offset : Z)
    (sender : option string) : M Session (list dict) :=
  results <- Services.get_messages MessageRepository session_id limit offset
               sender ;;
  ret (to_dict <$> results).

Definition search_messages (session_id q : string) (limit offset : Z)
    : M Session (list dict) :=
  results <- Services.search_messages MessageRepository session_id q limit
               offset ;;
  ret (to_dict <$> results).

(** [GET /api/messages/{session_id}] and
    [GET /api/messages/{session_id}/search]: the key is checked, then the
    query parameters, and only then does the handler run. *)
Definition get_request (x_api_key : option string) (session_id : string)
    (limit offset : Z) (sender : option string) : M Session (list dict) :=
  _ <- lift (Main.require_api_key x_api_key) ;;
  get_messages session_id limit offset sender.

Definition search_request (x_api_key : option string) (session_id q : string)
    (limit offset : Z) : M Session (list dict) :=
  _ <- lift (Main.require_api_key x_api_key) ;;
  q <- lift (min_length 2 q) ;;
  search_messages session_id q limit offset.
End with_datetime.

End Endpoints.

(** ** Notions for the further properties *)

Module Notions.
Import Models Repositories.

(** Every row sits under its own identifier. *)
Definition keyed (db : Session) : Prop :=
  forall k r, db !! k = Some r -> message_id r = k.

(** The printer and the parser of the library agree on a column value:
    what is printed is read back, and is not printed with a final Z. *)
Definition reads_back `{DatetimeLib} (o : option datetime) : Prop :=
  match o with
  | Some t =>
      fromisoformat (isoformat t) = Some t
      /\ Str.endswith (isoformat t) "Z" = false
  | None => True
  end.

(** A text that holds no U+0000. *)
Definition nul_free (s : string) : Prop :=
  Str.contains s (String "000" "") = false.

(** The tokens of a censored text: the mask in place of each forbidden
    word. *)
Definition masked (ts : list Spec.token) : list Spec.token :=
  t ← ts;
  match t with
  | Spec.Word w =>
      if decide (Spec.forbidden w)
      then [Spec.Sep "*"; Spec.Sep "*"; Spec.Sep "*"]
      else [t]
  | Spec.Sep _ => [t]
  end.

(** No word among the tokens is forbidden. *)
Definition clean (ts : list Spec.token) : Prop :=
  Forall (fun t => match t with
                   | Spec.Word w => ~ Spec.forbidden w
                   | Spec.Sep _ => True
                   end) ts.

End Notions.

(** ** Sample data for the scenarios *)

Module Sample.
Import Models.

(** A stand-in for the [datetime] library that knows one reading,
    2025-09-23 14:30:00, in seconds from 1970-01-01 00:00:00: it parses
    it with and without the UTC offset, and prints it as the naive
    datetime a row holds. *)
Definition lib : DatetimeLib := {|
  fromisoformat s :=
    if String.eqb s "2025-09-23T14:30:00+00:00" then Some 1758637800
    else if String.eqb s "2025-09-23T14:30:00" then Some 1758637800
    else None;
  isoformat t :=
    if t =? 1758637800 then "2025-09-23T14:30:00" else "";
  adapt_datetime t :=
    if t =? 1758637800 then "2025-09-23 14:30:00" else ""
|}.

(** A stand-in for the Unicode database from U+0180 on: no letters and
    no case there. *)
Definition database : Unicode.Database := {|
  Unicode.db_isalnum _ := false;
  Unicode.db_tolower c := c;
  Unicode.db_iscased _ := false;
  Unicode.db_extra_cases _ := [];
  Unicode.db_lower s := s
|}.

(** The message of the scenario, sent at [T]. *)
Definition hola (T : datetime) : MessageIn := {|
  in_message_id := "m1";
  in_session_id := "s1";
  in_content := "Hola tonto idiota";
  in_timestamp := T;
  in_sender := "user"
|}.

Definition row (id session : string) (T : datetime) (sender text : string)
    : MessageORM := {|
  message_id := id;
  session_id := Some session;
  content := Some text;
  timestamp := Some T;
  sender := Some sender;
  processed_at := Some (T + 1)
|}.

(** Five messages of session p, stored out of order, and one of
    another session. *)
Definition five : gmap string MessageORM :=
  <["e" := row "e" "p" 50 "user" "msg 4"]>
  (<["b" := row "b" "p" 20 "system" "msg 1"]>
  (<["x" := row "x" "q" 25 "user" "otra"]>
  (<["d" := row "d" "p" 40 "user" "msg 3"]>
  (<["a" := row "a" "p" 10 "user" "msg 0"]>
  (<["c" := row "c" "p" 30 "system" "msg 2"]> ∅))))).

(** The record of the search test. *)
Definition prueba : gmap string MessageORM :=
  {[ "t" := row "t" "case-sess" 60 "user" "Texto de Prueba" ]}.

End Sample.

(** * Properties *)

Import Models Repositories Services Main.

(** ** The string methods on examples *)

Example strip_example : Str.strip "  a b  " = "a b".
Proof. reflexivity. Qed.

Example replace_example : Str.replace "ab" "x" "aababb" = "axxb".
Proof. reflexivity. Qed.

Example findall_example :
  Re.findall ["tonto"; "idiota"] "TONTO,idiota! un_tonto tontos Tonto"
    = ["TONTO"; "idiota"; "Tonto"].
Proof. vm_compute. reflexivity. Qed.

(** ** Shape of the results *)

Lemma sql_offset_drop (n : Z) (q : list MessageORM) :
  sql_offset n q = drop (Z.to_nat n) q.
Proof.
  unfold sql_offset. destruct (Z.leb_spec (Z.of_nat (length q)) n);
    [|reflexivity].
  symmetry. apply drop_ge. lia.
Qed.

Lemma sql_limit_take (n : Z) (q : list MessageORM) :
  sql_limit n q = if n <? 0 then q else take (Z.to_nat n) q.
Proof.
  unfold sql_limit. destruct (Z.ltb_spec n 0); [reflexivity|]. simpl.
  destruct (Z.leb_spec (Z.of_nat (length q)) n); [|reflexivity].
  symmetry. apply take_ge. lia.
Qed.

Lemma process_message_str (words : list string) (now : datetime)
    (message : message) (original : string) :
  _ensure_dict message !! "content" = Some (VStr original) ->
  process_message_in words now message
    = inr (<["processed_at" := VDatetime now]>
           (<["metadata" := VMetadata (metadata words original)]>
           (<["content" := VStr (censored words original)]>
              (_ensure_dict message)))).
Proof. intros E. unfold process_message_in. rewrite E. reflexivity. Qed.

(** What [save] does to a table follows from what it does to the empty
    one: the row it builds is stored unless its key is taken. *)
Lemma save_from_empty `{DatetimeLib} (d : dict) (db : Session) :
  save d db =
    match fst (save d ∅) with
    | inl e => (inl e, db)
    | inr row =>
        match db !! message_id row with
        | Some _ => (inl IntegrityError, db)
        | None => (inr row, <[message_id row := row]> db)
        end
    end.
Proof.
  unfold save, bind, lift.
  repeat match goal with
  | |- context [match ?r with inl _ => _ | inr _ => _ end] =>
      is_var r; destruct r
  | |- context [_parse_iso_to_dt ?v] =>
      destruct (_parse_iso_to_dt v); simpl
  | |- context [getitem ?d ?k] => destruct (getitem d k); simpl
  end; try reflexivity.
  unfold add_commit, refresh.
  destruct (bind_row _) as [e|row]; simpl; [reflexivity|].
  rewrite lookup_empty, !lookup_insert_eq. simpl.
  destruct (db !! message_id row) eqn:E; [reflexivity|].
  rewrite lookup_insert_eq. reflexivity.
Qed.

(** ** The scenario of the specification *)

Lemma scenario_processed (T now : datetime) :
  process_message now (Model (Sample.hola T))
    = inr (<["processed_at" := VDatetime now]>
           (<["metadata" :=
                VMetadata {| Metadata.length := 17;
                             Metadata.bad_words := ["idiota"; "tonto"] |}]>
           (<["content" := VStr "Hola *** ***"]>
              (model_dump (Sample.hola T))))).
Proof.
  unfold process_message.
  rewrite (process_message_str _ _ _ "Hola tonto idiota") by reflexivity.
  replace (metadata (elements bad_words) "Hola tonto idiota")
    with {| Metadata.length := 17; Metadata.bad_words := ["idiota"; "tonto"] |}
    by (vm_compute; reflexivity).
  replace (censored (elements bad_words) "Hola tonto idiota")
    with "Hola *** ***" by (vm_compute; reflexivity).
  reflexivity.
Qed.

(** C2, as amended. Saving the message m1 of session s1 with content
    "Hola tonto idiota" stores the row with content "Hola *** ***"; the
    metadata the processor computes for it is length 17 (the character count
    of the content) with bad_words idiota, tonto, and it is not part of the
    stored row. *)
Theorem scenario_saved `{DatetimeLib} (T now : datetime) :
  let stored :=
    {| message_id := "m1"; session_id := Some "s1";
       content := Some "Hola *** ***"; timestamp := Some T;
       sender := Some "user"; processed_at := Some now |} in
  save_message MessageRepository now (Model (Sample.hola T)) ∅
    = (inr stored, {[ "m1" := stored ]})
  /\ to_dict stored !! "metadata" = None
  /\ exists processed,
       process_message now (Model (Sample.hola T)) = inr processed
       /\ processed !! "content" = Some (VStr "Hola *** ***")
       /\ processed !! "metadata"
            = Some (VMetadata {| Metadata.length := 17;
                                 Metadata.bad_words := ["idiota"; "tonto"] |}).
Proof.
  split; [|split].
  - vm_compute. reflexivity.
  - reflexivity.
  - eexists. split; [apply scenario_processed|]. split; reflexivity.
Qed.

(** C2, as stated, fails: the length recorded for "Hola tonto idiota" is
    not 18, and the stored row carries no metadata. *)
Lemma scenario_length_is_not_18 :
  (~ exists processed,
       process_message 0 (Model (Sample.hola 0)) = inr processed
       /\ processed !! "metadata"
            = Some (VMetadata {| Metadata.length := 18;
                                 Metadata.bad_words := ["idiota"; "tonto"] |}))
  /\ exists stored,
       fst (save_message (@MessageRepository Sample.lib) 0
              (Model (Sample.hola 0)) ∅) = inr stored
       /\ @to_dict Sample.lib stored !! "metadata" = None.
Proof.
  split.
  - intros (processed & Hp & Hm).
    rewrite scenario_processed in Hp. injection Hp as <-.
    rewrite lookup_insert_ne, lookup_insert_eq in Hm by discriminate.
    discriminate.
  - eexists. split; [vm_compute; reflexivity|reflexivity].
Qed.

(** ** The guard of the search *)

(** C6. A query whose stripped length is below 2 makes [search_messages]
    raise ValueError whatever the repository is, the store being left as it
    was; any other query is handed to the repository's search with the same
    session, query, limit and offset. *)
Theorem search_messages_guard {S} (repository : Repository S)
    (session_id query : string) (limit offset : Z) (st : S) :
  ((String.length (Str.strip query) < 2)%nat ->
     Services.search_messages repository session_id query limit offset st
       = (inl ValueError, st))
  /\ ((2 <= String.length (Str.strip query))%nat ->
     Services.search_messages repository session_id query limit offset st
       = repo_search_messages repository session_id query limit offset st).
Proof.
  unfold Services.search_messages. split; intros Hlen.
  - destruct (String.length (Str.strip query) <? 2)%nat eqn:E.
    + rewrite orb_true_r. reflexivity.
    + apply Nat.ltb_ge in E. lia.
  - destruct (String.eqb_spec query "") as [->|_]; simpl.
    + simpl in Hlen. lia.
    + destruct (String.length (Str.strip query) <? 2)%nat eqn:E; [|reflexivity].
      apply Nat.ltb_lt in E. lia.
Qed.

Lemma search_messages_guard_witness :
  Services.search_messages (@MessageRepository Sample.lib) "s1" " a " 10 0 ∅
    = (inl ValueError, ∅)
  /\ Services.search_messages (@MessageRepository Sample.lib) "s1" "ab" 10 0 ∅
    = Repositories.search_messages "s1" "ab" 10 0 ∅.
Proof.
  split.
  - apply (proj1 (search_messages_guard (@MessageRepository Sample.lib)
                    "s1" " a " 10 0 ∅)).
    vm_compute. lia.
  - apply (proj2 (search_messages_guard (@MessageRepository Sample.lib)
                    "s1" "ab" 10 0 ∅)).
    vm_compute. lia.
Defined.

(** ** The sender filter *)

(** The rows of a session, of every sender, in the order of the listing,
    and the part of them that a limit and an offset select. *)
Lemma get_by_session_no_sender (session_id : string) (limit offset : Z)
    (db : Session) :
  0 <= limit < 2 ^ 63 -> 0 <= offset < 2 ^ 63 ->
  get_by_session session_id limit offset None db
    = (inr (take (Z.to_nat limit) (drop (Z.to_nat offset)
              (order_by_timestamp
                 (filter (fun r => Models.session_id r = Some session_id)
                         (rows db))))), db).
Proof.
  intros HL HO. unfold get_by_session, offset_limit_all, bind_integer.
  destruct (Z.leb_spec (- 2 ^ 63) limit); [|lia].
  destruct (Z.ltb_spec limit (2 ^ 63)); [|lia].
  destruct (Z.leb_spec (- 2 ^ 63) offset); [|lia].
  destruct (Z.ltb_spec offset (2 ^ 63)); [|lia].
  simpl. rewrite sql_limit_take, sql_offset_drop.
  destruct (Z.ltb_spec limit 0); [lia|]. reflexivity.
Qed.

(** C10. An empty sender is no filter. [get_by_session], and
    [get_messages] over it, answer as they do without a sender, whatever
    the limit and the offset. For a limit and an offset from 0 up to 2^63
    the answer is the slice [offset, offset + limit) of the rows of the
    session ordered by timestamp, the sender playing no part. From the
    offset 0 and with a limit that is at least the number of rows of the
    table, the rows returned are the rows of the session, of every
    sender. *)
Theorem empty_sender_is_no_filter `{DatetimeLib} (session_id : string)
    (limit offset : Z) (db : Session) :
  get_by_session session_id limit offset (Some "") db
    = get_by_session session_id limit offset None db
  /\ get_messages MessageRepository session_id limit offset (Some "") db
    = get_messages MessageRepository session_id limit offset None db
  /\ (0 <= limit < 2 ^ 63 -> 0 <= offset < 2 ^ 63 ->
      get_messages MessageRepository session_id limit offset (Some "") db
        = (inr (take (Z.to_nat limit) (drop (Z.to_nat offset)
                  (order_by_timestamp
                     (filter (fun r => Models.session_id r = Some session_id)
                             (rows db))))), db))
  /\ (Z.of_nat (size db) <= limit < 2 ^ 63 ->
      exists results,
        get_messages MessageRepository session_id limit 0 (Some "") db
          = (inr results, db)
        /\ forall r,
             r ∈ results
             <-> (exists k, db !! k = Some r)
                 /\ Models.session_id r = Some session_id).
Proof.
  assert (get_messages MessageRepository session_id limit offset (Some "") db
            = get_by_session session_id limit offset None db) as E
    by reflexivity.
  split; [reflexivity|]. split; [reflexivity|]. split.
  - intros HL HO. rewrite E. apply get_by_session_no_sender; assumption.
  - intros HL.
    assert (get_messages MessageRepository session_id limit 0 (Some "") db
              = get_by_session session_id limit 0 None db) as ->
      by reflexivity.
    rewrite get_by_session_no_sender by lia.
    eexists. split; [reflexivity|]. intros r.
    set (q := filter (fun r => Models.session_id r = Some session_id)
                (rows db)).
    assert (length q <= size db)%nat as Hlen.
    { unfold q, rows. rewrite <- (length_map_to_list db), <- (length_fmap snd).
      apply length_filter. }
    change (drop (Z.to_nat 0) (order_by_timestamp q))
      with (order_by_timestamp q).
    unfold order_by_timestamp.
    rewrite take_ge
      by (rewrite (Permutation_length (merge_sort_Permutation _ q)); lia).
    rewrite merge_sort_Permutation. unfold q.
    rewrite list_elem_of_filter. unfold rows. rewrite list_elem_of_fmap.
    split.
    + intros [Hsid ([k r'] & -> & Hin)]. split; [|exact Hsid].
      exists k. apply elem_of_map_to_list, Hin.
    + intros [(k & Hk) Hsid]. split; [exact Hsid|].
      exists (k, r). split; [reflexivity|]. apply elem_of_map_to_list, Hk.
Qed.

Lemma empty_sender_is_no_filter_witness :
  exists results,
    get_messages (@MessageRepository Sample.lib) "p" 10 0 (Some "") Sample.five
      = (inr results, Sample.five)
    /\ Sample.row "a" "p" 10 "user" "msg 0" ∈ results
    /\ Sample.row "b" "p" 20 "system" "msg 1" ∈ results.
Proof.
  destruct (proj2 (proj2 (proj2 (@empty_sender_is_no_filter Sample.lib "p" 10 0
                                   Sample.five))))
    as (results & E & Hin).
  - vm_compute. split; [discriminate|reflexivity].
  - exists results. split; [exact E|]. split; apply Hin.
    + split; [exists "a"|]; reflexivity.
    + split; [exists "b"|]; reflexivity.
Defined.

(** ** Saving *)

(** The row a request model ends up as. *)
Lemma save_message_model `{DatetimeLib} (now : datetime) (m : MessageIn)
    (db : Session) :
  let row :=
    {| message_id := in_message_id m;
       session_id := Some (in_session_id m);
       content := Some (censored (elements bad_words) (in_content m));
       timestamp := Some (in_timestamp m);
       sender := Some (in_sender m);
       processed_at := Some now |} in
  save_message MessageRepository now (Model m) db =
    match db !! in_message_id m with
    | Some _ => (inl IntegrityError, db)
    | None => (inr row, <[in_message_id m := row]> db)
    end.
Proof.
  intros row. unfold save_message, bind, lift, process_message.
  rewrite (process_message_str _ _ _ (in_content m)) by reflexivity.
  simpl repo_save. rewrite save_from_empty.
  match goal with |- context [save ?d ∅] => set (processed := d) end.
  replace (fst (save processed ∅)) with (inr row : Exception + MessageORM);
    [reflexivity|].
  assert (processed !! "timestamp" = Some (VDatetime (in_timestamp m)))
    as Ets by reflexivity.
  assert (processed !! "processed_at" = Some (VDatetime now))
    as Epa by reflexivity.
  assert (processed !! "message_id" = Some (VStr (in_message_id m)))
    as Emid by reflexivity.
  assert (processed !! "session_id" = Some (VStr (in_session_id m)))
    as Esid by reflexivity.
  assert (processed !! "content"
            = Some (VStr (censored (elements bad_words) (in_content m))))
    as Ec by reflexivity.
  assert (processed !! "sender" = Some (VStr (in_sender m)))
    as Esnd by reflexivity.
  unfold save, bind, lift, get, getitem, add_commit, refresh.
  rewrite Ets, Epa, Emid, Esid, Ec, Esnd. simpl.
  rewrite lookup_empty, lookup_insert_eq. reflexivity.
Qed.

(** C3. Let two dictionaries that [save] accepts carry the same
    message_id, whatever their sessions, the identifier being free in the
    table. The first save succeeds and stores its row; the second raises
    IntegrityError and leaves the table, hence the first row with all its
    columns, as it was. *)
Theorem duplicate_message_id `{DatetimeLib} (d1 d2 : dict) (r1 r2 : MessageORM)
    (db : Session) :
  fst (save d1 ∅) = inr r1 ->
  fst (save d2 ∅) = inr r2 ->
  message_id r2 = message_id r1 ->
  db !! message_id r1 = None ->
  let db1 := <[message_id r1 := r1]> db in
  save d1 db = (inr r1, db1)
  /\ save d2 db1 = (inl IntegrityError, db1)
  /\ db1 !! message_id r1 = Some r1.
Proof.
  intros E1 E2 Eid Hfree db1. repeat split.
  - rewrite save_from_empty, E1, Hfree. reflexivity.
  - rewrite save_from_empty, E2, Eid. unfold db1.
    rewrite lookup_insert_eq. reflexivity.
  - apply lookup_insert_eq.
Qed.

Lemma duplicate_message_id_witness :
  let d1 := model_dump (Sample.hola 1758637800) in
  let d2 :=
    <["session_id" := VStr "s2"]> (<["content" := VStr "otra vez"]> d1) in
  let r1 := {| message_id := "m1"; session_id := Some "s1";
               content := Some "Hola tonto idiota";
               timestamp := Some 1758637800; sender := Some "user";
               processed_at := None |} in
  @save Sample.lib d1 ∅ = (inr r1, {[ "m1" := r1 ]})
  /\ @save Sample.lib d2 {[ "m1" := r1 ]}
       = (inl IntegrityError, {[ "m1" := r1 ]})
  /\ ({[ "m1" := r1 ]} : Session) !! "m1" = Some r1.
Proof.
  intros d1 d2 r1.
  apply (@duplicate_message_id Sample.lib d1 d2 r1
           {| message_id := "m1"; session_id := Some "s2";
              content := Some "otra vez"; timestamp := Some 1758637800;
              sender := Some "user"; processed_at := None |} ∅);
    vm_compute; reflexivity.
Defined.

(** C9. When [save_message] succeeds, the processor did compute a
    metadata object, yet what is stored is the returned row alone, and a
    row, whether returned by the save or by a read, has the six columns
    message_id, session_id, content, timestamp, sender and processed_at
    and no metadata. *)
Theorem metadata_is_not_persisted `{DatetimeLib} (now : datetime)
    (message : message) (db db' : Session) (saved : MessageORM) :
  save_message MessageRepository now message db = (inr saved, db') ->
  (exists processed m,
     process_message now message = inr processed
     /\ processed !! "metadata" = Some (VMetadata m))
  /\ db' = <[message_id saved := saved]> db
  /\ forall row : MessageORM,
       dom (to_dict row)
         = {[ "message_id"; "session_id"; "content"; "timestamp"; "sender";
              "processed_at" ]}
       /\ to_dict row !! "metadata" = None.
Proof.
  unfold save_message, bind, lift.
  change (process_message now (Dict (_ensure_dict message)))
    with (process_message now message).
  intros Hsave. split; [|split; [|intros row; split]].
  - unfold process_message, process_message_in in *.
    destruct (default (VStr "") (_ensure_dict message !! "content"));
      try discriminate.
    eexists _, _. split; [reflexivity|].
    rewrite lookup_insert_ne, lookup_insert_eq by discriminate. reflexivity.
  - destruct (process_message now message) as [e|processed];
      [discriminate|].
    simpl repo_save in Hsave. rewrite save_from_empty in Hsave.
    destruct (fst (save processed ∅)) as [e|row]; [discriminate|].
    destruct (db !! message_id row); [discriminate|].
    injection Hsave as <- <-. reflexivity.
  - unfold to_dict. rewrite !dom_insert_L, dom_empty_L. set_solver.
  - reflexivity.
Qed.

Lemma metadata_is_not_persisted_witness :
  let saved :=
    {| message_id := "m1"; session_id := Some "s1";
       content := Some "Hola *** ***"; timestamp := Some 5;
       sender := Some "user"; processed_at := Some 7 |} in
  (exists processed m,
     process_message 7 (Model (Sample.hola 5)) = inr processed
     /\ processed !! "metadata" = Some (VMetadata m))
  /\ ({[ "m1" := saved ]} : Session) = <[message_id saved := saved]> ∅
  /\ forall row : MessageORM,
       dom (@to_dict Sample.lib row)
         = {[ "message_id"; "session_id"; "content"; "timestamp"; "sender";
              "processed_at" ]}
       /\ @to_dict Sample.lib row !! "metadata" = None.
Proof.
  intros saved.
  apply (@metadata_is_not_persisted Sample.lib 7 (Model (Sample.hola 5)) ∅).
  vm_compute. reflexivity.
Defined.

(** ** The sender of a submitted message *)

(** C7, as amended. A submission to the endpoint whose sender is neither
    user nor system does not become a [MessageIn]: the request is answered
    with an exception and the table is left as it was. Whatever is
    submitted, a row that the request adds to the table has the submitted
    sender, and that sender is user or system. *)
Theorem invalid_sender_is_rejected `{DatetimeLib} (now : datetime)
    (x_api_key : option string) (message_id session_id content : string)
    (timestamp : datetime) (sender : string) (db : Session) :
  (sender <> "user" -> sender <> "system" ->
     MessageIn_init message_id session_id content timestamp sender
       = inl ValidationError
     /\ exists e,
          post_message now x_api_key message_id session_id content
            timestamp sender db = (inl e, db))
  /\ (forall k row,
        snd (post_message now x_api_key message_id session_id content
               timestamp sender db) !! k = Some row ->
        db !! k = Some row
        \/ (Models.sender row = Some sender
            /\ (sender = "user" \/ sender = "system"))).
Proof.
  unfold post_message, bind, lift, MessageIn_init, validate_sender.
  split.
  - intros Hu Hs.
    rewrite bool_decide_eq_false_2
      by (rewrite elem_of_union, !elem_of_singleton; tauto).
    split; [reflexivity|].
    destruct (require_api_key x_api_key); eexists; reflexivity.
  - intros k row.
    destruct (require_api_key x_api_key); simpl; [auto|].
    case_bool_decide as Hin; simpl; [|auto].
    unfold create_message, try_except, bind, ret.
    rewrite save_message_model. simpl in_message_id.
    destruct (db !! message_id) eqn:E; simpl; [auto|].
    intros Hk. destruct (decide (message_id = k)) as [->|Hne].
    + rewrite lookup_insert_eq in Hk. injection Hk as <-. simpl.
      right. split; [reflexivity|]. set_solver.
    + rewrite lookup_insert_ne in Hk by done. auto.
Qed.

Lemma invalid_sender_is_rejected_witness :
  MessageIn_init "m9" "s1" "Hola mundo" 1758637800 "robot"
    = inl ValidationError
  /\ exists e,
       @post_message Sample.lib 1758637900 (Some "mi-api-key-secreta")
         "m9" "s1" "Hola mundo" 1758637800 "robot" ∅ = (inl e, ∅).
Proof.
  apply (proj1 (@invalid_sender_is_rejected Sample.lib 1758637900
                  (Some "mi-api-key-secreta") "m9" "s1" "Hola mundo"
                  1758637800 "robot" ∅)); discriminate.
Defined.

(** C7, as stated, fails on the save path itself. The check is the
    request model's: [save_message] handed a plain dictionary, and [save]
    under it, store the sender they are given, here robot, which the
    validator refuses. *)
Lemma save_message_takes_a_dictionary_as_it_is :
  let d := <["sender" := VStr "robot"]> (model_dump (Sample.hola 5)) in
  let stored := {| message_id := "m1"; session_id := Some "s1";
                   content := Some "Hola *** ***"; timestamp := Some 5;
                   sender := Some "robot"; processed_at := Some 7 |} in
  let raw := {| message_id := "m1"; session_id := Some "s1";
                content := Some "Hola tonto idiota"; timestamp := Some 5;
                sender := Some "robot"; processed_at := None |} in
  validate_sender "robot" = inl ValidationError
  /\ save_message (@MessageRepository Sample.lib) 7 (Dict d) ∅
       = (inr stored, {[ "m1" := stored ]})
  /\ @save Sample.lib d ∅ = (inr raw, {[ "m1" := raw ]})
  /\ Models.sender stored = Some "robot"
  /\ Models.sender raw = Some "robot".
Proof.
  intros d stored raw.
  split; [reflexivity|].
  split; [vm_compute; reflexivity|].
  split; [vm_compute; reflexivity|].
  split; reflexivity.
Qed.

(** ** Timestamps *)

Lemma pieces_cons (find : option ascii -> string -> option nat)
    (prev : option ascii) (c : ascii) (s : string) :
  Str.pieces find prev (String c s) =
    match find prev (String c s) with
    | Some (S k) =>
        Str.Hit (String c (Str.take k s))
          :: Str.pieces find (Str.last (String c (Str.take k s))) (Str.drop k s)
    | _ => Str.Lit c :: Str.pieces find (Some c) s
    end.
Proof.
  simp pieces. destruct (find prev (String c s)) as [[|k]|]; reflexivity.
Qed.

Lemma append_cons (c : ascii) (s t : string) :
  String c s ++ t = String c (s ++ t).
Proof. reflexivity. Qed.

Lemma append_nil_l (s : string) : "" ++ s = s.
Proof. reflexivity. Qed.

Lemma startswith_nil (s : string) : Str.startswith s "" = true.
Proof. destruct s; reflexivity. Qed.

Lemma startswith_char (a c : ascii) (s : string) :
  Str.startswith (String c s) (String a "") = Ascii.eqb a c.
Proof. cbn [Str.startswith]. rewrite startswith_nil. apply andb_true_r. Qed.

Lemma contains_cons_char (a c : ascii) (s : string) :
  Str.contains (String c s) (String a "")
    = Ascii.eqb a c || Str.contains s (String a "").
Proof. cbn [Str.contains]. rewrite startswith_char. reflexivity. Qed.

Lemma replace_trailing_Z (s : string) :
  Str.contains s "Z" = false ->
  Str.replace "Z" "+00:00" (s ++ "Z") = s ++ "+00:00".
Proof.
  unfold Str.replace. generalize (@None ascii).
  induction s as [|c s IH]; intros prev Hno.
  - reflexivity.
  - rewrite contains_cons_char in Hno.
    apply orb_false_iff in Hno as [Hc Hs].
    rewrite !append_cons, pieces_cons.
    unfold Str.find_literal at 1. rewrite startswith_char, Hc.
    cbn [Str.substitute]. f_equal. apply IH, Hs.
Qed.

Lemma endswith_trailing_Z (s : string) : Str.endswith (s ++ "Z") "Z" = true.
Proof.
  induction s as [|c s IH]; [reflexivity|].
  rewrite append_cons. cbn [Str.endswith]. rewrite IH. apply orb_true_r.
Qed.

Lemma endswith_offset (s : string) : Str.endswith (s ++ "+00:00") "Z" = false.
Proof.
  induction s as [|c s IH]; [reflexivity|].
  rewrite !append_cons. cbn [Str.endswith]. rewrite IH, orb_false_r.
  cbn [String.eqb]. destruct (Ascii.eqb c "Z"); [|reflexivity].
  destruct s; reflexivity.
Qed.

(** C8. [_parse_iso_to_dt] returns a datetime as it is, and None as None.
    A string is handed to the ISO parser, and when it ends in Z (and, as
    every ISO-8601 date-time does, holds no other Z) it is parsed to what
    the string with +00:00 in place of that Z is parsed to. *)
Theorem parse_iso_trailing_Z `{DatetimeLib} (s : string) :
  Str.contains s "Z" = false ->
  (forall t, _parse_iso_to_dt (VDatetime t) = inr (Some t))
  /\ _parse_iso_to_dt VNone = inr None
  /\ _parse_iso_to_dt (VStr (s ++ "Z"))
       = _parse_iso_to_dt (VStr (s ++ "+00:00"))
  /\ _parse_iso_to_dt (VStr (s ++ "+00:00"))
       = match fromisoformat (s ++ "+00:00") with
         | Some t => inr (Some t)
         | None => inl ValueError
         end.
Proof.
  intros Hno. unfold _parse_iso_to_dt.
  rewrite endswith_trailing_Z, endswith_offset, replace_trailing_Z by done.
  auto.
Qed.

Lemma parse_iso_trailing_Z_witness :
  (forall t, @_parse_iso_to_dt Sample.lib (VDatetime t) = inr (Some t))
  /\ @_parse_iso_to_dt Sample.lib VNone = inr None
  /\ @_parse_iso_to_dt Sample.lib (VStr "2025-09-23T14:30:00Z")
       = @_parse_iso_to_dt Sample.lib (VStr "2025-09-23T14:30:00+00:00")
  /\ @_parse_iso_to_dt Sample.lib (VStr "2025-09-23T14:30:00+00:00")
       = inr (Some 1758637800).
Proof.
  apply (@parse_iso_trailing_Z Sample.lib "2025-09-23T14:30:00").
  reflexivity.
Defined.

(** The replacement is not confined to the end: a Z inside the text is
    rewritten as well. *)
Lemma replace_inner_Z :
  Str.replace "Z" "+00:00" "2025-09-23Z14:30:00Z"
    = "2025-09-23+00:0014:30:00+00:00".
Proof. reflexivity. Qed.

(** ** Listing a session *)

#[local] Instance ts_le_total : Total ts_le.
Proof. intros [x|] [y|]; simpl; auto; lia. Qed.

#[local] Instance ts_le_trans : Transitive ts_le.
Proof. intros [x|] [y|] [z|]; simpl; auto; try lia; tauto. Qed.

#[local] Instance by_timestamp_total : Total by_timestamp.
Proof. intros r1 r2. apply ts_le_total. Qed.

#[local] Instance by_timestamp_trans : Transitive by_timestamp.
Proof. intros r1 r2 r3. apply ts_le_trans. Qed.

Lemma ordered_sorted (P : MessageORM -> Prop) `{!forall r, Decision (P r)}
    (db : Session) :
  StronglySorted by_timestamp (Spec.ordered P db).
Proof. apply StronglySorted_merge_sort; apply _. Qed.

Lemma ordered_permutation (P : MessageORM -> Prop) `{!forall r, Decision (P r)}
    (db : Session) :
  Spec.ordered P db ≡ₚ filter P (rows db).
Proof. apply merge_sort_Permutation. Qed.

Lemma slice_sorted {A} (R : relation A) (O L : Z) (l : list A) :
  StronglySorted R l -> StronglySorted R (Spec.slice O L l).
Proof.
  intros Hl. unfold Spec.slice.
  rewrite <- (take_drop (Z.to_nat O) l) in Hl.
  apply StronglySorted_app_1_r in Hl.
  rewrite <- (take_drop (Z.to_nat L) (drop (Z.to_nat O) l)) in Hl.
  apply StronglySorted_app_1_l in Hl. exact Hl.
Qed.

Lemma slice_length {A} (O L : Z) (l : list A) :
  0 <= L -> 0 <= O ->
  Z.of_nat (length (Spec.slice O L l))
    = Z.min L (Z.max 0 (Z.of_nat (length l) - O)).
Proof.
  intros HL HO. unfold Spec.slice. rewrite length_take, length_drop. lia.
Qed.

Lemma bind_integer_in_range (n : Z) :
  - 2 ^ 63 <= n < 2 ^ 63 -> bind_integer n = inr n.
Proof.
  intros Hn. unfold bind_integer.
  destruct (Z.leb_spec (- 2 ^ 63) n); [|lia].
  destruct (Z.ltb_spec n (2 ^ 63)); [reflexivity|lia].
Qed.

Lemma bind_integer_inr (n m : Z) :
  bind_integer n = inr m -> m = n /\ - 2 ^ 63 <= n < 2 ^ 63.
Proof.
  unfold bind_integer.
  destruct (Z.leb_spec (- 2 ^ 63) n); [|discriminate].
  destruct (Z.ltb_spec n (2 ^ 63)); [|discriminate].
  intros [= <-]. lia.
Qed.

Lemma bind_integer_overflow (n : Z) :
  2 ^ 63 <= n -> bind_integer n = inl OverflowError.
Proof.
  intros Hn. unfold bind_integer.
  destruct (Z.ltb_spec n (2 ^ 63)); [lia|].
  rewrite andb_false_r. reflexivity.
Qed.

Lemma offset_limit_all_in_range (O L : Z) (q : list MessageORM) :
  - 2 ^ 63 <= L < 2 ^ 63 -> - 2 ^ 63 <= O < 2 ^ 63 ->
  offset_limit_all O L q = inr (sql_limit L (sql_offset O q)).
Proof.
  intros HL HO. unfold offset_limit_all.
  rewrite !bind_integer_in_range by assumption. reflexivity.
Qed.

Lemma offset_limit_all_inr (O L : Z) (q results : list MessageORM) :
  offset_limit_all O L q = inr results ->
  results = sql_limit L (sql_offset O q)
  /\ - 2 ^ 63 <= L < 2 ^ 63 /\ - 2 ^ 63 <= O < 2 ^ 63.
Proof.
  unfold offset_limit_all.
  destruct (bind_integer L) as [e|l] eqn:EL; [discriminate|].
  destruct (bind_integer O) as [e|o] eqn:EO; [discriminate|].
  apply bind_integer_inr in EL as [-> HL], EO as [-> HO].
  intros [= <-]. auto.
Qed.

Lemma get_by_session_listed (session_id : string) (limit offset : Z)
    (sender : option string) (db : Session) :
  0 <= limit < 2 ^ 63 -> - 2 ^ 63 <= offset < 2 ^ 63 ->
  get_by_session session_id limit offset sender db
    = (inr (Spec.slice offset limit
              (Spec.ordered (Spec.listed session_id sender) db)), db).
Proof.
  intros HL HO. unfold get_by_session.
  rewrite offset_limit_all_in_range by lia.
  rewrite sql_limit_take, sql_offset_drop.
  unfold Spec.slice, Spec.ordered, order_by_timestamp.
  destruct (limit <? 0) eqn:E; [apply Z.ltb_lt in E; lia|].
  match goal with
  | |- (inr (take _ (drop _ (merge_sort _ ?q))), _)
       = (inr (take _ (drop _ (merge_sort _ ?q'))), _) =>
      assert (q = q') as ->; [|reflexivity]
  end.
  destruct sender as [s|]; simpl.
  - destruct (String.eqb_spec s "") as [->|Hne]; simpl.
    + apply list_filter_iff. unfold Spec.listed. intuition.
    + rewrite list_filter_filter. apply list_filter_iff.
      unfold Spec.listed. intuition congruence.
  - apply list_filter_iff. unfold Spec.listed. intuition.
Qed.

(** C4, as amended. For a limit L >= 0 and an offset O >= 0, both below
    2^63, [get_by_session] returns the slice [O, O+L) of the full sequence
    of the listed rows ordered by timestamp, in non-decreasing timestamp
    order, and so min(L, max(0, N-O)) rows when N are listed. The listed
    rows are those of the session and of the given sender when a sender
    that is not empty is given; without a sender only the session
    restricts. *)
Theorem get_by_session_slice (session_id : string) (L O : Z)
    (sender : option string) (db : Session) :
  0 <= L < 2 ^ 63 -> 0 <= O < 2 ^ 63 ->
  let full := Spec.ordered (Spec.listed session_id sender) db in
  let result := Spec.slice O L full in
  full ≡ₚ filter (Spec.listed session_id sender) (rows db)
  /\ StronglySorted by_timestamp full
  /\ get_by_session session_id L O sender db = (inr result, db)
  /\ StronglySorted by_timestamp result
  /\ Z.of_nat (length result)
       = Z.min L (Z.max 0 (Z.of_nat (length full) - O))
  /\ (forall r, Spec.listed session_id None r
                <-> Models.session_id r = Some session_id)
  /\ (forall s r, s <> "" ->
        Spec.listed session_id (Some s) r
        <-> Models.session_id r = Some session_id /\ Models.sender r = Some s).
Proof.
  intros HL HO full result.
  split; [apply ordered_permutation|].
  split; [apply ordered_sorted|].
  split; [apply get_by_session_listed; lia|].
  split; [apply slice_sorted, ordered_sorted|].
  split; [apply slice_length; lia|].
  unfold Spec.listed. split; [tauto|]. intros s r Hs. tauto.
Qed.

(** The pagination scenario: five messages in session p, limit 2 and
    offset 1 give the second and the third by timestamp. *)
Lemma pagination_scenario :
  fst (get_by_session "p" 2 1 None Sample.five)
    = inr [Sample.row "b" "p" 20 "system" "msg 1";
           Sample.row "c" "p" 30 "system" "msg 2"].
Proof. vm_compute. reflexivity. Qed.

Lemma get_by_session_slice_witness :
  let full := Spec.ordered (Spec.listed "p" (Some "user")) Sample.five in
  let result := Spec.slice 1 2 full in
  full ≡ₚ filter (Spec.listed "p" (Some "user")) (rows Sample.five)
  /\ StronglySorted by_timestamp full
  /\ get_by_session "p" 2 1 (Some "user") Sample.five
       = (inr result, Sample.five)
  /\ StronglySorted by_timestamp result
  /\ Z.of_nat (length result)
       = Z.min 2 (Z.max 0 (Z.of_nat (length full) - 1))
  /\ (forall r, Spec.listed "p" None r <-> Models.session_id r = Some "p")
  /\ (forall s r, s <> "" ->
        Spec.listed "p" (Some s) r
        <-> Models.session_id r = Some "p" /\ Models.sender r = Some s).
Proof.
  apply (get_by_session_slice "p" 2 1 (Some "user") Sample.five); lia.
Defined.

(** C4, as stated, fails for the empty sender: the listing is not the
    slice of the rows whose sender is the empty string, it holds the
    row of the user. It fails for a limit or an offset from 2^63 on as
    well: the call raises [OverflowError] and returns no slice. *)
Lemma empty_sender_lists_every_sender :
  (fst (get_by_session "q" 10 0 (Some "") Sample.five)
     = inr [Sample.row "x" "q" 25 "user" "otra"]
   /\ Spec.slice 0 10 (Spec.ordered (Spec.sent_by "q" "") Sample.five) = []
   /\ fst (get_by_session "q" 10 0 (Some "") Sample.five)
        <> inr (Spec.slice 0 10
                  (Spec.ordered (Spec.sent_by "q" "") Sample.five)))
  /\ fst (get_by_session "q" (2 ^ 63) 0 None Sample.five) = inl OverflowError
  /\ fst (get_by_session "q" 10 (2 ^ 63) None Sample.five) = inl OverflowError.
Proof.
  split; [|split; reflexivity].
  assert (fst (get_by_session "q" 10 0 (Some "") Sample.five)
            = inr [Sample.row "x" "q" 25 "user" "otra"]) as E1
    by (vm_compute; reflexivity).
  assert (Spec.slice 0 10 (Spec.ordered (Spec.sent_by "q" "") Sample.five) = [])
    as E2 by (vm_compute; reflexivity).
  rewrite E1, E2. repeat split. discriminate.
Qed.

(** ** Searching *)

Lemma pattern_compare_percent (p t : string) :
  pattern_compare (String "%" p) t
    = pattern_compare p t
      || match t with
         | EmptyString => false
         | String _ t' => pattern_compare (String "%" p) t'
         end.
Proof. destruct t; reflexivity. Qed.

Lemma pattern_compare_only_percent (t : string) : pattern_compare "%" t = true.
Proof.
  induction t as [|c t IH]; [reflexivity|].
  rewrite pattern_compare_percent, IH. apply orb_true_r.
Qed.

Lemma pattern_compare_prefix (q t : string) :
  Str.contains q "%" = false -> Str.contains q "_" = false ->
  pattern_compare (q ++ "%") t = Str.startswith t q.
Proof.
  revert t. induction q as [|c q IH]; intros t Hp Hu.
  - rewrite startswith_nil. apply pattern_compare_only_percent.
  - rewrite contains_cons_char in Hp, Hu.
    apply orb_false_iff in Hp as [Hp Hp'], Hu as [Hu Hu'].
    rewrite append_cons. cbn [pattern_compare Str.startswith].
    rewrite Ascii.eqb_sym, Hp. destruct t as [|d t]; [reflexivity|].
    rewrite (Ascii.eqb_sym c "_"), Hu, IH by assumption. reflexivity.
Qed.

Lemma pattern_compare_contains (q t : string) :
  Str.contains q "%" = false -> Str.contains q "_" = false ->
  pattern_compare ("%" ++ q ++ "%") t = Str.contains t q.
Proof.
  intros Hp Hu. rewrite append_cons, append_nil_l.
  induction t as [|c t IH];
    rewrite pattern_compare_percent, pattern_compare_prefix by assumption.
  - cbn [Str.contains]. reflexivity.
  - cbn [Str.contains]. f_equal. exact IH.
Qed.

(** A text without U+0000 is read in full. *)
Lemma c_string_nul_free (s : string) : Notions.nul_free s -> c_string s = s.
Proof.
  unfold Notions.nul_free. induction s as [|c s IH]; [reflexivity|].
  rewrite contains_cons_char. intros [Hc Hs]%orb_false_iff.
  cbn [c_string]. rewrite Ascii.eqb_sym, Hc, IH by assumption. reflexivity.
Qed.

Lemma c_string_append (s t : string) :
  Notions.nul_free s -> c_string (s ++ t) = s ++ c_string t.
Proof.
  unfold Notions.nul_free. induction s as [|c s IH].
  - intros _. rewrite !append_nil_l. reflexivity.
  - rewrite contains_cons_char. intros [Hc Hs]%orb_false_iff.
    rewrite !append_cons. cbn [c_string].
    rewrite Ascii.eqb_sym, Hc, IH by assumption. reflexivity.
Qed.

Lemma like_contains (q t : string) :
  Notions.nul_free q ->
  Str.contains q "%" = false -> Str.contains q "_" = false ->
  like ("%" ++ q ++ "%") t = Str.contains (c_string t) q.
Proof.
  intros Hq Hp Hu. unfold like.
  change ("%" ++ q ++ "%") with (String "%" (q ++ "%")).
  cbn [c_string]. change (Ascii.eqb "%" "000") with false. cbv iota.
  rewrite c_string_append by assumption.
  change (c_string "%") with "%".
  change (String "%" (q ++ "%")) with ("%" ++ q ++ "%").
  apply pattern_compare_contains; assumption.
Qed.

Lemma sql_lower_append (s t : string) :
  sql_lower (s ++ t) = sql_lower s ++ sql_lower t.
Proof.
  induction s as [|c s IH]; [reflexivity|].
  rewrite append_cons. cbn [sql_lower]. rewrite append_cons, IH. reflexivity.
Qed.

Lemma sql_lower_keeps (a : ascii) (s : string) :
  sql_lower_char a = a ->
  (forall c, Ascii.eqb a (sql_lower_char c) = Ascii.eqb a c) ->
  Str.contains (sql_lower s) (String a "") = Str.contains s (String a "").
Proof.
  intros Ha Hc. induction s as [|c s IH]; [reflexivity|].
  cbn [sql_lower]. rewrite !contains_cons_char, Hc, IH. reflexivity.
Qed.

Lemma sql_lower_percent (s : string) :
  Str.contains (sql_lower s) "%" = Str.contains s "%".
Proof.
  apply sql_lower_keeps; [reflexivity|].
  intros [[] [] [] [] [] [] [] []]; reflexivity.
Qed.

Lemma sql_lower_underscore (s : string) :
  Str.contains (sql_lower s) "_" = Str.contains s "_".
Proof.
  apply sql_lower_keeps; [reflexivity|].
  intros [[] [] [] [] [] [] [] []]; reflexivity.
Qed.

Lemma sql_lower_nul_free (s : string) :
  Notions.nul_free s -> Notions.nul_free (sql_lower s).
Proof.
  unfold Notions.nul_free. intros Hs.
  rewrite sql_lower_keeps; [exact Hs|reflexivity|].
  intros [[] [] [] [] [] [] [] []]; reflexivity.
Qed.

Lemma c_string_sql_lower (s : string) :
  c_string (sql_lower s) = sql_lower (c_string s).
Proof.
  induction s as [|c s IH]; [reflexivity|]. cbn [sql_lower c_string].
  replace (Ascii.eqb (sql_lower_char c) "000") with (Ascii.eqb c "000")
    by (destruct c as [[] [] [] [] [] [] [] []]; reflexivity).
  destruct (Ascii.eqb c "000"); [reflexivity|].
  cbn [sql_lower]. rewrite IH. reflexivity.
Qed.

Lemma utf8_bytes_append (s t : string) :
  utf8_bytes (s ++ t) = utf8_bytes s + utf8_bytes t.
Proof.
  induction s as [|c s IH]; [rewrite append_nil_l; reflexivity|].
  rewrite append_cons. cbn [utf8_bytes]. rewrite IH. lia.
Qed.

Lemma utf8_bytes_sql_lower (s : string) :
  utf8_bytes (sql_lower s) = utf8_bytes s.
Proof.
  induction s as [|c s IH]; [reflexivity|]. cbn [sql_lower utf8_bytes].
  rewrite IH. f_equal.
  destruct c as [[] [] [] [] [] [] [] []]; reflexivity.
Qed.

Lemma like_too_complex_query (query : string) :
  like_too_complex ("%" ++ query ++ "%") = (49998 <? utf8_bytes query).
Proof.
  unfold like_too_complex.
  rewrite utf8_bytes_sql_lower, !utf8_bytes_append.
  change (utf8_bytes "%") with 1.
  destruct (Z.ltb_spec 50000 (1 + (utf8_bytes query + 1))),
    (Z.ltb_spec 49998 (utf8_bytes query)); try reflexivity; lia.
Qed.

(** What a search that returns has returned. *)
Lemma search_messages_inr (session_id query : string) (limit offset : Z)
    (db : Session) (results : list MessageORM) :
  fst (Repositories.search_messages session_id query limit offset db)
    = inr results ->
  results
    = sql_limit limit (sql_offset offset (order_by_timestamp
        (filter (fun r => Models.session_id r = Some session_id
                          /\ ilike (Models.content r) ("%" ++ query ++ "%")
                             = true)
                (rows db)))).
Proof.
  unfold Repositories.search_messages.
  destruct (offset_limit_all _ _ _) as [e|page] eqn:E; [discriminate|].
  apply offset_limit_all_inr in E as (-> & _ & _).
  destruct (_ && _); [discriminate|]. simpl. intros [= <-]. reflexivity.
Qed.

(** A search with numbers that SQLite takes and a query of at most 49998
    bytes returns. *)
Lemma search_messages_returns (session_id query : string) (limit offset : Z)
    (db : Session) :
  - 2 ^ 63 <= limit < 2 ^ 63 -> - 2 ^ 63 <= offset < 2 ^ 63 ->
  utf8_bytes query <= 49998 ->
  Repositories.search_messages session_id query limit offset db
    = (inr (sql_limit limit (sql_offset offset (order_by_timestamp
         (filter (fun r => Models.session_id r = Some session_id
                           /\ ilike (Models.content r) ("%" ++ query ++ "%")
                              = true)
                 (rows db))))), db).
Proof.
  intros HL HO Hq. unfold Repositories.search_messages.
  rewrite offset_limit_all_in_range by assumption.
  rewrite like_too_complex_query.
  destruct (Z.ltb_spec 49998 (utf8_bytes query)); [lia|]. reflexivity.
Qed.

Lemma filter_iff_in {A} (P Q : A -> Prop) `{!forall x, Decision (P x)}
    `{!forall x, Decision (Q x)} (l : list A) :
  (forall x, x ∈ l -> P x <-> Q x) -> filter P l = filter Q l.
Proof.
  induction l as [|x l IH]; intros HPQ; [reflexivity|].
  rewrite !filter_cons.
  rewrite IH by (intros y Hy; apply HPQ, list_elem_of_further, Hy).
  pose proof (HPQ x (list_elem_of_here x l)) as Hx.
  destruct (decide (P x)) as [HP|HP], (decide (Q x)) as [HQ|HQ];
    try reflexivity; tauto.
Qed.

(** For a query of at most 49998 bytes without the characters %, _ and
    U+0000, a limit and an offset that SQLite takes, and stored texts
    without U+0000, the search is the substring test of the specification,
    ordered and paginated like a listing. *)
Lemma search_messages_substring (session_id query : string) (L O : Z)
    (db : Session) :
  0 <= L < 2 ^ 63 -> - 2 ^ 63 <= O < 2 ^ 63 ->
  utf8_bytes query <= 49998 ->
  Str.contains query "%" = false -> Str.contains query "_" = false ->
  Notions.nul_free query ->
  (forall r text, r ∈ rows db -> Models.content r = Some text ->
     Notions.nul_free text) ->
  Repositories.search_messages session_id query L O db
    = (inr (Spec.slice O L (Spec.ordered (Spec.holds session_id query) db)),
       db).
Proof.
  intros HL HO Hq Hp Hu Hz Hdb.
  rewrite search_messages_returns by lia.
  rewrite sql_limit_take, sql_offset_drop.
  unfold Spec.slice, Spec.ordered, order_by_timestamp.
  destruct (L <? 0) eqn:E; [apply Z.ltb_lt in E; lia|].
  match goal with
  | |- (inr (take _ (drop _ (merge_sort _ ?q))), _)
       = (inr (take _ (drop _ (merge_sort _ ?q'))), _) =>
      assert (q = q') as ->; [|reflexivity]
  end.
  apply filter_iff_in. intros r Hr. unfold Spec.holds, ilike, Spec.icontains.
  destruct (Models.content r) as [text|] eqn:Ec; [|intuition discriminate].
  change ("%" ++ query ++ "%") with (String "%" "" ++ query ++ "%").
  rewrite !sql_lower_append.
  change (sql_lower "%") with "%".
  rewrite like_contains
    by (rewrite ?sql_lower_percent, ?sql_lower_underscore;
        eauto using sql_lower_nul_free).
  rewrite c_string_nul_free by eauto using sql_lower_nul_free.
  reflexivity.
Qed.

(** The search test: texto and TEXTO both find the record
    "Texto de Prueba". *)
Lemma search_case_insensitive :
  fst (Repositories.search_messages "case-sess" "texto" 10 0 Sample.prueba)
    = inr [Sample.row "t" "case-sess" 60 "user" "Texto de Prueba"]
  /\ fst (Repositories.search_messages "case-sess" "TEXTO" 10 0 Sample.prueba)
    = inr [Sample.row "t" "case-sess" 60 "user" "Texto de Prueba"].
Proof. split; vm_compute; reflexivity. Qed.

(** C5 fails on the code for a query that holds % or _: the query m_g 0
    finds the record "msg 0", of which it is no substring. *)
Theorem search_wildcard_is_not_substring :
  fst (Repositories.search_messages "p" "m_g 0" 10 0 Sample.five)
    = inr [Sample.row "a" "p" 10 "user" "msg 0"]
  /\ Spec.icontains "msg 0" "m_g 0" = false
  /\ Spec.ordered (Spec.holds "p" "m_g 0") Sample.five = [].
Proof. repeat split; vm_compute; reflexivity. Qed.

(** ** Censorship *)

Section scan.
Import Str Re Spec.

Lemma is_word_lower_char (c : ascii) : is_word (lower_char c) = is_word c.
Proof. destruct c as [[] [] [] [] [] [] [] []]; reflexivity. Qed.

Lemma same_letter_same_class (a b : ascii) :
  Ascii.eqb (lower_char a) (lower_char b) = true -> is_word a = is_word b.
Proof.
  intros E%Ascii.eqb_eq.
  rewrite <- (is_word_lower_char a), <- (is_word_lower_char b), E.
  reflexivity.
Qed.

Lemma length_lower (s : string) : String.length (lower s) = String.length s.
Proof. induction s; simpl; congruence. Qed.

Lemma head_app (w rest : string) :
  w <> "" -> head (w ++ rest) = head w.
Proof. destruct w; [congruence|reflexivity]. Qed.

Lemma head_all_word (w : string) :
  w <> "" -> all_word w = true -> is_word_at (head w) = true.
Proof.
  destruct w as [|c w]; [congruence|]. simpl.
  intros _ [H _]%andb_true_iff. exact H.
Qed.

(** A literal made of word characters, once inside a word, goes through
    with its closing boundary exactly when it spells the rest of the
    word. *)
Lemma match_literal_inside (a : string) (prev : option ascii)
    (w rest : string) :
  all_word a = true -> all_word w = true ->
  is_word_at (head rest) = false -> is_word_at prev = true ->
  match match_literal a prev (w ++ rest) with
  | Some (before, r) => boundary before (head r)
  | None => false
  end = String.eqb (lower a) (lower w).
Proof.
  revert prev w. induction a as [|a1 a IH]; intros prev w Ha Hw Hrest Hprev.
  - cbn [match_literal lower]. unfold boundary. rewrite Hprev.
    destruct w as [|w1 w].
    + rewrite append_nil_l, Hrest. reflexivity.
    + simpl in Hw. apply andb_true_iff in Hw as [Hw1 _].
      rewrite append_cons. simpl. rewrite Hw1. reflexivity.
  - simpl in Ha. apply andb_true_iff in Ha as [Ha1 Ha].
    destruct w as [|w1 w].
    + rewrite append_nil_l. cbn [match_literal lower String.eqb].
      destruct rest as [|r1 rest]; [reflexivity|].
      destruct (Ascii.eqb (lower_char a1) (lower_char r1)) eqn:E;
        [|reflexivity].
      apply same_letter_same_class in E. simpl in Hrest. congruence.
    + simpl in Hw. apply andb_true_iff in Hw as [Hw1 Hw].
      rewrite append_cons. cbn [match_literal lower String.eqb].
      destruct (Ascii.eqb (lower_char a1) (lower_char w1)); [|reflexivity].
      apply IH; assumption.
Qed.

Lemma match_literal_start (a : string) (prev : option ascii)
    (w rest : string) :
  a <> "" -> all_word a = true -> w <> "" -> all_word w = true ->
  is_word_at (head rest) = false ->
  match match_literal a prev (w ++ rest) with
  | Some (before, r) => boundary before (head r)
  | None => false
  end = String.eqb (lower a) (lower w).
Proof.
  intros Ha0 Ha Hw0 Hw Hrest.
  destruct a as [|a1 a]; [congruence|]. destruct w as [|w1 w]; [congruence|].
  simpl in Ha, Hw. apply andb_true_iff in Ha as [Ha1 Ha], Hw as [Hw1 Hw].
  rewrite append_cons. cbn [match_literal lower String.eqb].
  destruct (Ascii.eqb (lower_char a1) (lower_char w1)); [|reflexivity].
  apply match_literal_inside; assumption.
Qed.

Lemma match_alternatives_word (alts : list string) (prev : option ascii)
    (w rest : string) :
  Forall plain alts -> w <> "" -> all_word w = true ->
  is_word_at (head rest) = false ->
  match_alternatives alts prev (w ++ rest)
    = if hit alts w then Some (String.length w) else None.
Proof.
  intros Halts Hw0 Hw Hrest.
  induction Halts as [|a alts [Ha0 Ha] _ IH]; [reflexivity|].
  cbn [match_alternatives hit existsb].
  pose proof (match_literal_start a prev w rest Ha0 Ha Hw0 Hw Hrest) as E.
  destruct (String.eqb_spec (lower a) (lower w)) as [El|_].
  - destruct (match_literal a prev (w ++ rest)) as [[before r]|];
      [|discriminate].
    rewrite E. simpl. f_equal.
    rewrite <- (length_lower a), El. apply length_lower.
  - simpl. fold (hit alts w).
    destruct (match_literal a prev (w ++ rest)) as [[before r]|];
      [rewrite E|]; exact IH.
Qed.

Lemma match_alternatives_sep (alts : list string) (prev : option ascii)
    (c : ascii) (rest : string) :
  Forall plain alts -> is_word c = false ->
  match_alternatives alts prev (String c rest) = None.
Proof.
  intros Halts Hc. induction Halts as [|a alts [Ha0 Ha] _ IH]; [reflexivity|].
  cbn [match_alternatives].
  destruct a as [|a1 a]; [congruence|]. cbn [match_literal].
  simpl in Ha. apply andb_true_iff in Ha as [Ha1 _].
  destruct (Ascii.eqb (lower_char a1) (lower_char c)) eqn:E; [|exact IH].
  apply same_letter_same_class in E. congruence.
Qed.

Lemma take_app_length (w rest : string) :
  take (String.length w) (w ++ rest) = w.
Proof.
  induction w as [|c w IH]; [destruct rest; reflexivity|].
  rewrite append_cons. simpl. rewrite IH. reflexivity.
Qed.

Lemma drop_app_length (w rest : string) :
  drop (String.length w) (w ++ rest) = rest.
Proof.
  induction w as [|c w IH]; [destruct rest; reflexivity|].
  rewrite append_cons. simpl. exact IH.
Qed.

Lemma last_all_word (w : string) :
  w <> "" -> all_word w = true -> is_word_at (last w) = true.
Proof.
  induction w as [|c w IH]; [congruence|]. intros _ Hw.
  simpl in Hw. apply andb_true_iff in Hw as [Hc Hw].
  destruct w as [|d w]; [exact Hc|].
  change (last (String c (String d w))) with (last (String d w)).
  apply IH; [discriminate|exact Hw].
Qed.

Section pattern.
Variable alts : list string.
Hypothesis alts_plain : Forall plain alts.

Lemma find_word_start (prev : option ascii) (w rest : string) :
  w <> "" -> all_word w = true ->
  is_word_at (head rest) = false -> is_word_at prev = false ->
  find_word alts prev (w ++ rest)
    = if hit alts w then Some (String.length w) else None.
Proof.
  intros Hw0 Hw Hrest Hprev. unfold find_word, boundary.
  rewrite head_app, Hprev, head_all_word by assumption.
  apply match_alternatives_word; assumption.
Qed.

Lemma find_word_sep (prev : option ascii) (c : ascii) (rest : string) :
  is_word c = false -> find_word alts prev (String c rest) = None.
Proof.
  intros Hc. unfold find_word.
  rewrite match_alternatives_sep by assumption.
  destruct (boundary _ _); reflexivity.
Qed.

Lemma find_word_inside (prev : option ascii) (c : ascii) (s : string) :
  is_word_at prev = true -> is_word c = true ->
  find_word alts prev (String c s) = None.
Proof.
  intros Hprev Hc. unfold find_word, boundary. simpl.
  rewrite Hprev, Hc. reflexivity.
Qed.

(** Inside a word the scan copies. *)
Lemma pieces_inside (w : string) (prev : option ascii) (rest : string) :
  all_word w = true -> is_word_at prev = true ->
  exists prev',
    is_word_at prev' = true
    /\ pieces (find_word alts) prev (w ++ rest)
         = (lits w ++ pieces (find_word alts) prev' rest)%list.
Proof.
  revert prev. induction w as [|c w IH]; intros prev Hw Hprev.
  - exists prev. split; [assumption|reflexivity].
  - simpl in Hw. apply andb_true_iff in Hw as [Hc Hw].
    destruct (IH (Some c) Hw Hc) as (prev' & Hprev' & E).
    exists prev'. split; [assumption|].
    rewrite append_cons, pieces_cons, find_word_inside by assumption.
    rewrite E. reflexivity.
Qed.

(** At the head of a word the scan finds the whole word or copies the
    whole word. *)
Lemma pieces_word (w : string) (prev : option ascii) (rest : string) :
  w <> "" -> all_word w = true ->
  is_word_at (head rest) = false -> is_word_at prev = false ->
  exists prev',
    is_word_at prev' = true
    /\ pieces (find_word alts) prev (w ++ rest)
         = ((if hit alts w then [Hit w] else lits w)
            ++ pieces (find_word alts) prev' rest)%list.
Proof.
  intros Hw0 Hw Hrest Hprev.
  pose proof (find_word_start prev w rest Hw0 Hw Hrest Hprev) as Efind.
  pose proof (last_all_word w Hw0 Hw) as Hlast.
  destruct w as [|c w]; [congruence|].
  rewrite append_cons in *. rewrite pieces_cons, Efind.
  destruct (hit alts (String c w)).
  - exists (last (String c w)). split; [assumption|].
    cbn [String.length]. rewrite take_app_length, drop_app_length.
    reflexivity.
  - simpl in Hw. apply andb_true_iff in Hw as [Hc Hw].
    destruct (pieces_inside w (Some c) rest Hw Hc) as (prev' & Hprev' & E).
    exists prev'. split; [assumption|]. rewrite E. reflexivity.
Qed.

Lemma head_text (ts : list token) :
  well_cut ts ->
  match ts with Word _ :: _ => False | _ => True end ->
  is_word_at (head (text ts)) = false.
Proof.
  destruct ts as [|[w|c] ts]; simpl; [reflexivity|tauto|].
  intros [Hc _] _. exact Hc.
Qed.

(** The scan of a well cut text yields the pieces of its tokens. *)
Lemma pieces_scanned (ts : list token) (prev : option ascii) :
  well_cut ts ->
  (is_word_at prev = true ->
   match ts with Word _ :: _ => False | _ => True end) ->
  pieces (find_word alts) prev (text ts) = scanned (hit alts) ts.
Proof.
  revert prev. induction ts as [|t ts IH]; intros prev Hcut Hprev.
  - reflexivity.
  - unfold scanned. rewrite bind_cons. fold (scanned (hit alts) ts).
    change (text (t :: ts)) with (token_text t ++ text ts).
    destruct t as [w|c]; cbn [token_text].
    + destruct Hcut as (Hw0 & Hw & Hnext & Hcut).
      destruct (pieces_word w prev (text ts)) as (prev' & Hprev' & E);
        try assumption.
      * apply head_text; assumption.
      * destruct (is_word_at prev); [destruct Hprev|]; reflexivity.
      * rewrite E. f_equal. apply IH; [assumption|]. intros _. exact Hnext.
    + destruct Hcut as (Hc & Hcut).
      rewrite append_cons, append_nil_l, pieces_cons, find_word_sep
        by assumption.
      simpl. f_equal. apply IH; [assumption|].
      simpl. rewrite Hc. discriminate.
Qed.

End pattern.

Lemma tokenize_text (s : string) : text (tokenize s) = s.
Proof.
  induction s as [|c s IH]; [reflexivity|]. simpl.
  destruct (is_word c).
  - destruct (tokenize s) as [|[w|d] ts]; rewrite <- IH; reflexivity.
  - rewrite <- IH at 2. reflexivity.
Qed.

Lemma tokenize_well_cut (s : string) : well_cut (tokenize s).
Proof.
  induction s as [|c s IH]; [exact I|]. simpl.
  destruct (is_word c) eqn:Hc.
  - destruct (tokenize s) as [|[w|d] ts]; simpl in *.
    + rewrite Hc. repeat split; discriminate.
    + destruct IH as (Hw0 & Hw & Hnext & Hcut).
      rewrite Hc, Hw. repeat split; try discriminate; assumption.
    + rewrite Hc. repeat split; try discriminate; tauto.
  - split; assumption.
Qed.

(** The scan of any text, by the pattern of plain alternatives, is the
    scan of its words. *)
Lemma pieces_tokenize (alts : list string) (s : string) :
  Forall plain alts ->
  pieces (find_word alts) None s = scanned (hit alts) (tokenize s).
Proof.
  intros Halts. rewrite <- (tokenize_text s) at 1.
  apply pieces_scanned; [assumption|apply tokenize_well_cut|discriminate].
Qed.

End scan.

Section censorship.
Import Str Re Spec.

Lemma append_assoc (a b c : string) : (a ++ b) ++ c = a ++ (b ++ c).
Proof.
  induction a as [|x a IH]; [reflexivity|].
  rewrite !append_cons, IH. reflexivity.
Qed.

Lemma substitute_app (repl : string) (l1 l2 : list piece) :
  substitute repl (l1 ++ l2)%list
    = substitute repl l1 ++ substitute repl l2.
Proof.
  induction l1 as [|[c|m] l1 IH]; [reflexivity| |]; simpl; rewrite IH.
  - reflexivity.
  - symmetry. apply append_assoc.
Qed.

Lemma substitute_lits (repl w : string) : substitute repl (lits w) = w.
Proof. induction w as [|c w IH]; simpl; congruence. Qed.

Lemma hits_app (l1 l2 : list piece) :
  hits (l1 ++ l2)%list = (hits l1 ++ hits l2)%list.
Proof. induction l1 as [|[c|m] l1 IH]; simpl; congruence. Qed.

Lemma hits_lits (w : string) : hits (lits w) = [].
Proof. induction w as [|c w IH]; simpl; congruence. Qed.

(** Replacing the occurrences among the pieces of the tokens masks the
    words that are hit. *)
Lemma substitute_scanned (h : string -> bool) (ts : list token) :
  substitute "***" (scanned h ts)
    = foldr String.append ""
        ((fun t => match t with
                   | Word w => if h w then "***" else w
                   | Sep c => String c ""
                   end) <$> ts).
Proof.
  induction ts as [|t ts IH]; [reflexivity|].
  unfold scanned. rewrite bind_cons. fold (scanned h ts).
  rewrite substitute_app, IH. cbn [fmap list_fmap foldr]. f_equal.
  destruct t as [w|c]; [|reflexivity].
  destruct (h w); [reflexivity|apply substitute_lits].
Qed.

Lemma elem_of_hits_scanned (h : string -> bool) (ts : list token) (f : string) :
  f ∈ hits (scanned h ts) <-> Word f ∈ ts /\ h f = true.
Proof.
  induction ts as [|t ts IH].
  - simpl. rewrite !elem_of_nil. tauto.
  - unfold scanned. rewrite bind_cons. fold (scanned h ts).
    rewrite hits_app, elem_of_app, IH, elem_of_cons.
    destruct t as [w|c].
    + destruct (h w) eqn:E; simpl.
      * rewrite list_elem_of_singleton. split.
        -- intros [->|[? ?]]; auto.
        -- intros [[[= ->]|?] ?]; auto.
      * rewrite hits_lits, elem_of_nil. split.
        -- intros [[]|[? ?]]; auto.
        -- intros [[[= ->]|?] ?]; [congruence|auto].
    + simpl. rewrite elem_of_nil. split.
      * intros [[]|[? ?]]; auto.
      * intros [[?|?] ?]; [discriminate|auto].
Qed.

Lemma elements_bad_words : elements bad_words = ["idiota"; "tonto"].
Proof. vm_compute. reflexivity. Qed.

Lemma elem_of_words (words : list string) (a : string) :
  words ≡ₚ elements bad_words ->
  a ∈ words <-> a = "idiota" \/ a = "tonto".
Proof.
  intros ->. rewrite elements_bad_words, elem_of_cons, list_elem_of_singleton.
  reflexivity.
Qed.

Lemma elem_of_bad_words (a : string) :
  a ∈ bad_words <-> a = "idiota" \/ a = "tonto".
Proof.
  unfold bad_words. rewrite elem_of_union, !elem_of_singleton. tauto.
Qed.

Lemma words_plain (words : list string) :
  words ≡ₚ elements bad_words -> Forall plain words.
Proof.
  intros Hw. apply Forall_forall. intros a Ha.
  apply (elem_of_words _ _ Hw) in Ha as [-> | ->];
    (split; [discriminate|reflexivity]).
Qed.

Lemma hit_forbidden (words : list string) (w : string) :
  words ≡ₚ elements bad_words ->
  hit words w = bool_decide (forbidden w).
Proof.
  intros Hw. unfold hit, forbidden.
  destruct (existsb _ words) eqn:E; symmetry.
  - apply bool_decide_eq_true. apply existsb_exists in E as (a & Ha & E).
    apply String.eqb_eq in E. apply list_elem_of_In in Ha.
    apply (elem_of_words _ _ Hw) in Ha. apply elem_of_bad_words.
    rewrite <- E. destruct Ha as [-> | ->]; [left|right]; reflexivity.
  - apply bool_decide_eq_false. intros Hin.
    apply elem_of_bad_words in Hin.
    assert (existsb (fun a => String.eqb (lower a) (lower w)) words = true)
      as E'; [|congruence].
    apply existsb_exists. exists (lower w). split.
    + apply list_elem_of_In, (elem_of_words _ _ Hw), Hin.
    + apply String.eqb_eq. destruct Hin as [-> | ->]; reflexivity.
Qed.

Lemma censored_censor (words : list string) (c : string) :
  words ≡ₚ elements bad_words ->
  censored words c = censor c.
Proof.
  intros Hw. unfold censored, sub, censor.
  rewrite pieces_tokenize by (apply words_plain, Hw).
  rewrite substitute_scanned. f_equal.
  apply list_fmap_ext. intros _ [w|a] _; [|reflexivity]. simpl.
  rewrite (hit_forbidden _ _ Hw). destruct (decide (forbidden w)) as [H|H].
  - rewrite bool_decide_eq_true_2 by assumption. reflexivity.
  - rewrite bool_decide_eq_false_2 by assumption. reflexivity.
Qed.

Lemma elem_of_found (words : list string) (c f : string) :
  words ≡ₚ elements bad_words ->
  f ∈ found words c
  <-> f ∈ bad_words /\ exists w, Word w ∈ tokenize c /\ lower w = f.
Proof.
  intros Hw. unfold found, findall.
  rewrite elem_of_list_to_set, list_elem_of_fmap.
  rewrite pieces_tokenize by (apply words_plain, Hw).
  split.
  - intros (w & -> & Hin). apply elem_of_hits_scanned in Hin as [Hin Hhit].
    rewrite (hit_forbidden _ _ Hw) in Hhit.
    apply bool_decide_eq_true in Hhit. split; [exact Hhit|]. eauto.
  - intros (Hf & w & Hin & <-). exists w. split; [reflexivity|].
    apply elem_of_hits_scanned. split; [assumption|].
    rewrite (hit_forbidden _ _ Hw). apply bool_decide_eq_true. exact Hf.
Qed.

(** The order in which the set yields its words does not show in the
    metadata. *)
Lemma metadata_order (words : list string) (c : string) :
  words ≡ₚ elements bad_words ->
  metadata words c = metadata (elements bad_words) c.
Proof.
  intros Hw. unfold metadata. do 3 f_equal.
  apply set_eq. intros f.
  rewrite (elem_of_found words c f Hw).
  rewrite (elem_of_found (elements bad_words) c f) by reflexivity.
  reflexivity.
Qed.

End censorship.

(** C1 fails on the code for a text with the dotless i, U+0131. Under
    [re.IGNORECASE] the letter i of the pattern stands for U+0131 too, so
    the six characters U+0131 d U+0131 o t a are matched and masked; the
    match lower-cased is the match itself, and this is what [bad_words]
    lists: a text that is neither of the forbidden words. So it is for
    either order of the words in the pattern, and whatever the Unicode
    database says from U+0180 on. *)
Theorem dotless_i_is_listed `{Unicode.Database} :
  let original := [305; 100; 305; 111; 116; 97]%N in
  let words := Unicode.encode <$> elements bad_words in
  words = [Unicode.encode "idiota"; Unicode.encode "tonto"]
  /\ Unicode.findall words original = [original]
  /\ Unicode.censored words original = Unicode.encode "***"
  /\ Unicode.metadata_length original = 6%nat
  /\ Unicode.metadata_bad_words words original = [original]
  /\ (original ∉ words)
  /\ Unicode.censored (reverse words) original = Unicode.encode "***"
  /\ Unicode.metadata_bad_words (reverse words) original = [original].
Proof.
  intros original words.
  assert (words = [Unicode.encode "idiota"; Unicode.encode "tonto"]) as ->
    by (vm_compute; reflexivity).
  split; [reflexivity|].
  split; [vm_compute; reflexivity|].
  split; [vm_compute; reflexivity|].
  split; [reflexivity|].
  split; [vm_compute; reflexivity|].
  split.
  { rewrite !elem_of_cons, elem_of_nil. intros [E|[E|[]]]; discriminate E. }
  split; vm_compute; reflexivity.
Qed.

(** ** The two readings of the pattern

    On a text of characters up to U+00FF the scan on code points does
    what the scan on characters does, whatever the database says beyond
    its table. *)

Section readings.
Context `{Unicode.Database}.

Lemma encode_cons (a : ascii) (s : string) :
  Unicode.encode (String a s) = Str.ord a :: Unicode.encode s.
Proof. reflexivity. Qed.

Lemma encode_append (s t : string) :
  Unicode.encode (s ++ t) = (Unicode.encode s ++ Unicode.encode t)%list.
Proof.
  induction s as [|a s IH]; [rewrite append_nil_l; reflexivity|].
  rewrite append_cons, !encode_cons, IH. reflexivity.
Qed.

Lemma length_encode (s : string) :
  length (Unicode.encode s) = String.length s.
Proof.
  induction s as [|a s IH]; [reflexivity|]. rewrite encode_cons. simpl. lia.
Qed.

Lemma ord_inj (a b : ascii) : Str.ord a = Str.ord b -> a = b.
Proof.
  unfold Str.ord. intros E.
  rewrite <- (ascii_N_embedding a), <- (ascii_N_embedding b), E. reflexivity.
Qed.

Lemma ord_eqb (a b : ascii) : (Str.ord a =? Str.ord b)%N = Ascii.eqb a b.
Proof.
  destruct (Ascii.eqb_spec a b) as [->|Hne]; [apply N.eqb_refl|].
  apply N.eqb_neq. intros E. apply Hne, ord_inj, E.
Qed.

Lemma encode_inj (s t : string) : Unicode.encode s = Unicode.encode t -> s = t.
Proof.
  revert t. induction s as [|a s IH]; intros [|b t]; try discriminate.
  - reflexivity.
  - rewrite !encode_cons. intros [= E1 E2]. f_equal; [apply ord_inj, E1|].
    apply IH, E2.
Qed.

Lemma head_encode (s : string) :
  head (Unicode.encode s) = Str.ord <$> Str.head s.
Proof. destruct s; reflexivity. Qed.

Lemma last_encode (s : string) :
  last (Unicode.encode s) = Str.ord <$> Str.last s.
Proof.
  induction s as [|a s IH]; [reflexivity|].
  destruct s as [|b s]; [reflexivity|].
  rewrite encode_cons. rewrite encode_cons in IH. exact IH.
Qed.

Lemma take_encode (k : nat) (s : string) :
  take k (Unicode.encode s) = Unicode.encode (Str.take k s).
Proof.
  revert s. induction k as [|k IH]; intros [|a s]; try reflexivity.
  rewrite encode_cons. simpl. rewrite IH. reflexivity.
Qed.

Lemma drop_encode (k : nat) (s : string) :
  drop k (Unicode.encode s) = Unicode.encode (Str.drop k s).
Proof.
  revert s. induction k as [|k IH]; intros [|a s]; try reflexivity.
  rewrite encode_cons. simpl. apply IH.
Qed.

(** The tables on a character up to U+00FF. *)
Lemma in_table_ord (a : ascii) : Unicode.in_table (Str.ord a) = true.
Proof. destruct a as [[] [] [] [] [] [] [] []]; reflexivity. Qed.

Lemma is_word_ord (a : ascii) : Unicode.is_word (Str.ord a) = Re.is_word a.
Proof. destruct a as [[] [] [] [] [] [] [] []]; reflexivity. Qed.

Lemma tolower_ord (a : ascii) :
  Unicode.tolower (Str.ord a) = Str.ord (Str.lower_char a).
Proof. destruct a as [[] [] [] [] [] [] [] []]; reflexivity. Qed.

Lemma lower_char_ord (a : ascii) :
  Unicode.lower_char (Str.ord a) = [Str.ord (Str.lower_char a)].
Proof. destruct a as [[] [] [] [] [] [] [] []]; reflexivity. Qed.

Lemma extra_cases_beyond (a : ascii) :
  forallb (N.leb 256) (Unicode.extra_cases (Unicode.tolower (Str.ord a)))
    = true.
Proof. destruct a as [[] [] [] [] [] [] [] []]; reflexivity. Qed.

Lemma uncased_is_lower (a : ascii) :
  Unicode.iscased (Str.ord a) || Ascii.eqb (Str.lower_char a) a = true.
Proof. destruct a as [[] [] [] [] [] [] [] []]; reflexivity. Qed.

Lemma lowered_is_cased (b : ascii) :
  Ascii.eqb (Str.lower_char b) b
  || Unicode.iscased (Str.ord (Str.lower_char b)) = true.
Proof. destruct b as [[] [] [] [] [] [] [] []]; reflexivity. Qed.

Lemma ord_bounded (a : ascii) : (Str.ord a < 256)%N.
Proof. apply N_ascii_bounded. Qed.

Lemma match_char_ord (a b : ascii) :
  Unicode.match_char (Str.ord a) (Str.ord b)
    = Ascii.eqb (Str.lower_char a) (Str.lower_char b).
Proof.
  unfold Unicode.match_char.
  destruct (Unicode.iscased (Str.ord a)) eqn:Ecased.
  - assert (existsb (N.eqb (Unicode.tolower (Str.ord b)))
              (Unicode.extra_cases (Unicode.tolower (Str.ord a))) = false)
      as ->.
    { pose proof (extra_cases_beyond a) as Hall.
      rewrite tolower_ord. pose proof (ord_bounded (Str.lower_char b)) as Hb.
      induction (Unicode.extra_cases (Unicode.tolower (Str.ord a)))
        as [|x l IH]; [reflexivity|].
      simpl in Hall. apply andb_true_iff in Hall as [Hx Hl].
      apply N.leb_le in Hx. simpl. rewrite (IH Hl), orb_false_r.
      apply N.eqb_neq. lia. }
    rewrite orb_false_r, !tolower_ord, ord_eqb. apply Ascii.eqb_sym.
  - pose proof (uncased_is_lower a) as Ha. rewrite Ecased in Ha. simpl in Ha.
    apply Ascii.eqb_eq in Ha. rewrite Ha, ord_eqb.
    destruct (Ascii.eqb_spec b a) as [->|Hne].
    + rewrite Ha. symmetry. apply Ascii.eqb_refl.
    + symmetry. apply Ascii.eqb_neq. intros E.
      pose proof (lowered_is_cased b) as Hb. rewrite <- E, Ecased in Hb.
      rewrite orb_false_r in Hb. apply Ascii.eqb_eq in Hb. congruence.
Qed.

Lemma is_word_at_ord (c : option ascii) :
  Unicode.is_word_at (Str.ord <$> c) = Re.is_word_at c.
Proof. destruct c as [c|]; [apply is_word_ord|reflexivity]. Qed.

Lemma boundary_ord (prev next : option ascii) :
  Unicode.boundary (Str.ord <$> prev) (Str.ord <$> next)
    = Re.boundary prev next.
Proof.
  unfold Unicode.boundary, Re.boundary. rewrite !is_word_at_ord. reflexivity.
Qed.

Lemma match_literal_encode (w : string) (prev : option ascii) (s : string) :
  Unicode.match_literal (Unicode.encode w) (Str.ord <$> prev)
    (Unicode.encode s)
    = match Re.match_literal w prev s with
      | Some (before, rest) => Some (Str.ord <$> before, Unicode.encode rest)
      | None => None
      end.
Proof.
  revert prev s. induction w as [|a w IH]; intros prev s; [reflexivity|].
  destruct s as [|b s]; [reflexivity|].
  rewrite !encode_cons. cbn [Unicode.match_literal Re.match_literal].
  rewrite match_char_ord.
  destruct (Ascii.eqb (Str.lower_char a) (Str.lower_char b)); [|reflexivity].
  apply (IH (Some b) s).
Qed.

Lemma match_alternatives_encode (alts : list string) (prev : option ascii)
    (s : string) :
  Unicode.match_alternatives (Unicode.encode <$> alts) (Str.ord <$> prev)
    (Unicode.encode s)
    = Re.match_alternatives alts prev s.
Proof.
  induction alts as [|w alts IH]; [reflexivity|].
  cbn [fmap list_fmap Unicode.match_alternatives Re.match_alternatives].
  rewrite match_literal_encode.
  destruct (Re.match_literal w prev s) as [[before rest]|]; simpl; [|exact IH].
  rewrite head_encode, boundary_ord, length_encode, IH. reflexivity.
Qed.

Lemma find_word_encode (alts : list string) (prev : option ascii)
    (s : string) :
  Unicode.find_word (Unicode.encode <$> alts) (Str.ord <$> prev)
    (Unicode.encode s)
    = Re.find_word alts prev s.
Proof.
  unfold Unicode.find_word, Re.find_word.
  rewrite head_encode, boundary_ord, match_alternatives_encode. reflexivity.
Qed.

Lemma code_point_pieces_cons (find : option N -> Unicode.text -> option nat)
    (prev : option N) (c : N) (s : Unicode.text) :
  Unicode.pieces find prev (c :: s) =
    match find prev (c :: s) with
    | Some (S k) =>
        Unicode.Hit (c :: take k s)
          :: Unicode.pieces find (last (c :: take k s)) (drop k s)
    | _ => Unicode.Lit c :: Unicode.pieces find (Some c) s
    end.
Proof.
  simp pieces. destruct (find prev (c :: s)) as [[|k]|]; reflexivity.
Qed.

Lemma pieces_encode (alts : list string) (n : nat) :
  forall (s : string) (prev : option ascii),
    (String.length s <= n)%nat ->
    Unicode.pieces (Unicode.find_word (Unicode.encode <$> alts))
      (Str.ord <$> prev) (Unicode.encode s)
      = Unicode.encode_piece <$> Str.pieces (Re.find_word alts) prev s.
Proof.
  induction n as [|n IH]; intros [|c s] prev Hlen; simpl in Hlen;
    try reflexivity; try lia.
  rewrite pieces_cons, encode_cons, code_point_pieces_cons.
  rewrite <- encode_cons, find_word_encode.
  destruct (Re.find_word alts prev (String c s)) as [[|k]|].
  - cbn [fmap list_fmap Unicode.encode_piece]. f_equal.
    apply (IH s (Some c)). lia.
  - rewrite take_encode, drop_encode, <- encode_cons, last_encode.
    cbn [fmap list_fmap Unicode.encode_piece]. f_equal.
    apply IH. pose proof (Str.length_drop_le k s). lia.
  - cbn [fmap list_fmap Unicode.encode_piece]. f_equal.
    apply (IH s (Some c)). lia.
Qed.

Lemma hits_encode (ps : list Str.piece) :
  Unicode.hits (Unicode.encode_piece <$> ps) = Unicode.encode <$> Str.hits ps.
Proof.
  induction ps as [|[c|m] ps IH]; [reflexivity|exact IH|].
  cbn [fmap list_fmap Unicode.encode_piece Unicode.hits Str.hits].
  f_equal. exact IH.
Qed.

Lemma substitute_encode (repl : string) (ps : list Str.piece) :
  Unicode.substitute (Unicode.encode repl) (Unicode.encode_piece <$> ps)
    = Unicode.encode (Str.substitute repl ps).
Proof.
  induction ps as [|[c|m] ps IH]; [reflexivity| |].
  - cbn [fmap list_fmap Unicode.encode_piece Unicode.substitute
         Str.substitute].
    rewrite encode_cons. f_equal. exact IH.
  - cbn [fmap list_fmap Unicode.encode_piece Unicode.substitute
         Str.substitute].
    rewrite encode_append. f_equal. exact IH.
Qed.

Lemma findall_encode (alts : list string) (s : string) :
  Unicode.findall (Unicode.encode <$> alts) (Unicode.encode s)
    = Unicode.encode <$> Re.findall alts s.
Proof.
  unfold Unicode.findall, Re.findall.
  pose proof (pieces_encode alts (String.length s) s None) as E.
  change (Str.ord <$> None) with (@None N) in E. rewrite E by lia.
  apply hits_encode.
Qed.

Lemma sub_encode (alts : list string) (repl s : string) :
  Unicode.sub (Unicode.encode <$> alts) (Unicode.encode repl)
    (Unicode.encode s)
    = Unicode.encode (Re.sub alts repl s).
Proof.
  unfold Unicode.sub, Re.sub.
  pose proof (pieces_encode alts (String.length s) s None) as E.
  change (Str.ord <$> None) with (@None N) in E. rewrite E by lia.
  apply substitute_encode.
Qed.

Lemma lower_encode (w : string) :
  Unicode.lower (Unicode.encode w) = Unicode.encode (Str.lower w).
Proof.
  unfold Unicode.lower.
  assert (forallb Unicode.in_table (Unicode.encode w) = true) as ->.
  { induction w as [|a w IH]; [reflexivity|].
    rewrite encode_cons. simpl. rewrite in_table_ord. exact IH. }
  induction w as [|a w IH]; [reflexivity|].
  rewrite encode_cons. cbn [Str.lower]. rewrite encode_cons.
  cbn [mbind list_bind]. rewrite lower_char_ord, IH. reflexivity.
Qed.

(** The order of the texts is the order of the strings. *)
#[local] Instance text_le_trans : Transitive Unicode.text_le.
Proof.
  intros a. induction a as [|x a IH]; intros [|y b] [|z c]; simpl;
    try tauto.
  intros [Hxy|[-> Hab]] [Hyz|[-> Hbc]]; try (left; lia); auto.
  right. split; [reflexivity|]. exact (IH b c Hab Hbc).
Qed.

#[local] Instance text_le_total : Total Unicode.text_le.
Proof.
  intros a. induction a as [|x a IH]; intros [|y b]; simpl; auto.
  destruct (N.lt_trichotomy x y) as [Hlt|[->|Hgt]]; auto.
  destruct (IH b); auto.
Qed.

#[local] Instance text_le_antisymm : AntiSymm (=) Unicode.text_le.
Proof.
  intros a. induction a as [|x a IH]; intros [|y b]; simpl; try tauto.
  intros [Hxy|[-> Hab]] [Hyx|[E Hba]]; try lia.
  f_equal. apply IH; assumption.
Qed.

Lemma le_encode (a b : string) :
  String.le a b -> Unicode.text_le (Unicode.encode a) (Unicode.encode b).
Proof.
  unfold String.le, String.leb. revert b.
  induction a as [|x a IH]; intros [|y b] Hle; try exact I.
  - destruct Hle.
  - rewrite !encode_cons. cbn [Unicode.text_le].
    cbn [String.compare] in Hle. unfold Ascii.compare in Hle. unfold Str.ord.
    destruct (N.compare_spec (N_of_ascii x) (N_of_ascii y)) as [E|Hlt|Hgt].
    + right. split; [exact E|]. apply IH, Hle.
    + left. exact Hlt.
    + destruct Hle.
Qed.

Lemma metadata_bad_words_encode (alts : list string) (s : string) :
  Unicode.metadata_bad_words (Unicode.encode <$> alts) (Unicode.encode s)
    = Unicode.encode <$> Metadata.bad_words (metadata alts s).
Proof.
  unfold Unicode.metadata_bad_words, metadata. cbn [Metadata.bad_words].
  apply (StronglySorted_unique Unicode.text_le).
  - apply StronglySorted_merge_sort; apply _.
  - apply (StronglySorted_fmap _ String.le); [apply le_encode|].
    apply StronglySorted_merge_sort; apply _.
  - apply NoDup_Permutation.
    + rewrite merge_sort_Permutation. apply NoDup_elements.
    + apply NoDup_fmap_2; [intros a b; apply encode_inj|].
      rewrite merge_sort_Permutation. apply NoDup_elements.
    + intros x. rewrite merge_sort_Permutation, elem_of_elements.
      unfold Unicode.found. rewrite elem_of_list_to_set, findall_encode.
      rewrite <- list_fmap_compose, list_elem_of_fmap.
      rewrite list_elem_of_fmap. split.
      * intros (w & -> & Hw). exists (Str.lower w).
        split; [apply lower_encode|].
        rewrite merge_sort_Permutation, elem_of_elements.
        unfold found. rewrite elem_of_list_to_set, list_elem_of_fmap. eauto.
      * intros (f & -> & Hf).
        rewrite merge_sort_Permutation, elem_of_elements in Hf.
        unfold found in Hf.
        rewrite elem_of_list_to_set, list_elem_of_fmap in Hf.
        destruct Hf as (w & -> & Hw). exists w.
        split; [symmetry; apply lower_encode|exact Hw].
Qed.

End readings.

(** X23. On a content of characters up to U+00FF the pattern of the bad
    words read on code points, with the case rules of Unicode, finds and
    masks what the pattern read character by character finds and masks,
    and the metadata are the same, whatever the order of the words and
    whatever the database says from U+0180 on: there the dotless i and
    its like play no part. *)
Theorem code_points_agree `{Unicode.Database} (words : list string)
    (c : string) :
  words ≡ₚ elements Services.bad_words ->
  Unicode.findall (Unicode.encode <$> words) (Unicode.encode c)
    = Unicode.encode <$> Re.findall words c
  /\ Unicode.censored (Unicode.encode <$> words) (Unicode.encode c)
     = Unicode.encode (censored words c)
  /\ Unicode.metadata_length (Unicode.encode c)
     = Metadata.length (metadata words c)
  /\ Unicode.metadata_bad_words (Unicode.encode <$> words) (Unicode.encode c)
     = Unicode.encode <$> Metadata.bad_words (metadata words c).
Proof.
  intros _.
  split; [apply findall_encode|].
  split; [apply sub_encode|].
  split; [apply length_encode|].
  apply metadata_bad_words_encode.
Qed.

Lemma code_points_agree_witness :
  let words := ["tonto"; "idiota"] in
  let c := "TONTO,idiota! un_tonto tontos Tonto" in
  @Unicode.censored Sample.database (Unicode.encode <$> words)
    (Unicode.encode c)
    = Unicode.encode "***,***! un_tonto tontos ***"
  /\ @Unicode.metadata_bad_words Sample.database (Unicode.encode <$> words)
       (Unicode.encode c)
     = [Unicode.encode "idiota"; Unicode.encode "tonto"].
Proof.
  intros words c.
  destruct (@code_points_agree Sample.database words c)
    as (_ & Hcensored & _ & Hbad).
  - rewrite elements_bad_words. apply perm_swap.
  - rewrite Hcensored, Hbad. split; vm_compute; reflexivity.
Defined.

(** X22. Let the content of the message be the string c, of characters up
    to U+00FF, and let the pattern list the bad words in any order.
    [process_message] then returns, whatever that order, a dictionary whose
    content is c with each word (maximal run of word characters) that is
    tonto or idiota, case set aside, replaced by ***, and nothing else
    changed; whose metadata length is the character count of c; and whose
    metadata bad_words is sorted, without duplicates, and holds exactly
    the bad words that some word of c spells when lower-cased. The words
    of c spell c and are well cut. *)
Theorem process_message_censors (words : list string) (now : datetime)
    (message : message) (c : string) :
  words ≡ₚ elements Services.bad_words ->
  _ensure_dict message !! "content" = Some (VStr c) ->
  exists processed bw,
    process_message_in words now message = inr processed
    /\ processed !! "content" = Some (VStr (Spec.censor c))
    /\ processed !! "metadata"
         = Some (VMetadata {| Metadata.length := String.length c;
                              Metadata.bad_words := bw |})
    /\ Sorted String.le bw
    /\ NoDup bw
    /\ (forall f,
          f ∈ bw
          <-> f ∈ Services.bad_words
              /\ exists w, Spec.Word w ∈ Spec.tokenize c /\ Str.lower w = f)
    /\ Spec.text (Spec.tokenize c) = c
    /\ Spec.well_cut (Spec.tokenize c)
    /\ process_message now message = inr processed.
Proof.
  intros Hw Hc. eexists _, _.
  split; [apply process_message_str, Hc|].
  split.
  { rewrite lookup_insert_ne, lookup_insert_ne, lookup_insert_eq
      by discriminate.
    rewrite (censored_censor _ _ Hw). reflexivity. }
  split.
  { rewrite lookup_insert_ne, lookup_insert_eq by discriminate. reflexivity. }
  split; [apply Sorted_merge_sort; apply _|].
  split.
  { rewrite merge_sort_Permutation. apply NoDup_elements. }
  split.
  { intros f. rewrite merge_sort_Permutation, elem_of_elements.
    apply elem_of_found, Hw. }
  split; [apply tokenize_text|].
  split; [apply tokenize_well_cut|].
  unfold process_message. rewrite (process_message_str _ _ _ c Hc).
  rewrite (censored_censor words c Hw).
  rewrite (censored_censor (elements bad_words) c) by reflexivity.
  rewrite (metadata_order words c Hw). reflexivity.
Qed.

Lemma process_message_censors_witness :
  exists processed bw,
    process_message_in ["tonto"; "idiota"] 7 (Model (Sample.hola 5))
      = inr processed
    /\ processed !! "content" = Some (VStr (Spec.censor "Hola tonto idiota"))
    /\ processed !! "metadata"
         = Some (VMetadata
                   {| Metadata.length := String.length "Hola tonto idiota";
                      Metadata.bad_words := bw |})
    /\ Sorted String.le bw
    /\ NoDup bw
    /\ (forall f,
          f ∈ bw
          <-> f ∈ Services.bad_words
              /\ exists w, Spec.Word w ∈ Spec.tokenize "Hola tonto idiota"
                           /\ Str.lower w = f)
    /\ Spec.text (Spec.tokenize "Hola tonto idiota") = "Hola tonto idiota"
    /\ Spec.well_cut (Spec.tokenize "Hola tonto idiota")
    /\ process_message 7 (Model (Sample.hola 5)) = inr processed.
Proof.
  apply (process_message_censors ["tonto"; "idiota"] 7 (Model (Sample.hola 5))
           "Hola tonto idiota").
  - rewrite elements_bad_words. apply perm_swap.
  - reflexivity.
Defined.

(** Words inside larger words stay, whatever their case; whole words go. *)
Lemma censor_examples :
  Spec.censor "TONTO,idiota! un_tonto tontos Tonto"
    = "***,***! un_tonto tontos ***"
  /\ Services.censored (elements Services.bad_words)
       "TONTO,idiota! un_tonto tontos Tonto"
    = "***,***! un_tonto tontos ***".
Proof. split; vm_compute; reflexivity. Qed.

(** * Further properties *)

(** ** What a save does to the table *)

(** What a successful [save] has read and written. *)
Lemma save_inversion `{DatetimeLib} (d : dict) (db db' : Session)
    (row : MessageORM) :
  save d db = (inr row, db') ->
  db !! message_id row = None
  /\ db' = <[message_id row := row]> db
  /\ (exists v, d !! "message_id" = Some v
                /\ bind_string v = inr (Some (message_id row)))
  /\ (exists v, d !! "session_id" = Some v
                /\ bind_string v = inr (session_id row))
  /\ (exists v, d !! "content" = Some v /\ bind_string v = inr (content row))
  /\ (exists v, d !! "sender" = Some v /\ bind_string v = inr (sender row))
  /\ _parse_iso_to_dt (get d "timestamp") = inr (timestamp row)
  /\ _parse_iso_to_dt (get d "processed_at") = inr (processed_at row).
Proof.
  unfold save, bind, lift, getitem, add_commit, refresh, bind_row. simpl.
  destruct (_parse_iso_to_dt (get d "timestamp")) as [|ts]; [discriminate|].
  destruct (_parse_iso_to_dt (get d "processed_at")) as [|pa];
    [discriminate|].
  destruct (d !! "message_id") as [mid|]; [|discriminate].
  destruct (d !! "session_id") as [sid|]; [|discriminate].
  destruct (d !! "content") as [c|]; [|discriminate].
  destruct (d !! "sender") as [snd|]; [|discriminate].
  destruct (bind_string mid) as [|[k|]] eqn:Emid;
    destruct (bind_string sid) as [|sid'] eqn:Esid;
    destruct (bind_string c) as [|c'] eqn:Ec;
    destruct (bind_string snd) as [|snd'] eqn:Esnd; try discriminate.
  simpl. destruct (db !! k) eqn:Ek; [discriminate|].
  rewrite lookup_insert_eq. intros [= <- <-]. simpl.
  repeat split; eauto.
Qed.

(** The two outcomes of a [save]. *)
Lemma save_cases `{DatetimeLib} (d : dict) (db : Session) :
  (exists e, save d db = (inl e, db))
  \/ (exists row,
        save d db = (inr row, <[message_id row := row]> db)
        /\ db !! message_id row = None).
Proof.
  rewrite save_from_empty. destruct (fst (save d ∅)) as [e|row]; [eauto|].
  destruct (db !! message_id row) eqn:E; eauto.
Qed.

(** X1. Whatever a [save] is given and however it ends, the rows already in
    the table stay as they are; when it raises, the table is left exactly
    as it was found. *)
Theorem save_never_alters_a_stored_row `{DatetimeLib} (d : dict)
    (db : Session) :
  (forall k r, db !! k = Some r -> snd (save d db) !! k = Some r)
  /\ (forall e, fst (save d db) = inl e -> snd (save d db) = db).
Proof.
  destruct (save_cases d db) as [(e & E)|(row & E & Hfree)]; rewrite E; simpl.
  - split; auto.
  - split; [|discriminate]. intros k r Hk.
    rewrite lookup_insert_ne; [assumption|]. intros <-. congruence.
Qed.

Lemma save_never_alters_a_stored_row_witness :
  let r1 := Sample.row "a" "p" 10 "user" "msg 0" in
  let d := model_dump (Sample.hola 5) in
  snd (@save Sample.lib d Sample.five) !! "a" = Some r1
  /\ snd (@save Sample.lib (delete "sender" d) Sample.five) = Sample.five.
Proof.
  intros r1 d. split.
  - apply (proj1 (@save_never_alters_a_stored_row Sample.lib d Sample.five)).
    vm_compute. reflexivity.
  - apply (proj2 (@save_never_alters_a_stored_row Sample.lib
                    (delete "sender" d) Sample.five) (KeyError "sender")).
    vm_compute. reflexivity.
Defined.

Lemma bind_string_str `{DatetimeLib} (s : string) (o : option string) :
  bind_string (VStr s) = inr o -> o = Some s.
Proof. intros [= <-]. reflexivity. Qed.

Lemma bind_string_None `{DatetimeLib} (o : option string) :
  bind_string VNone = inr o -> o = None.
Proof. intros [= <-]. reflexivity. Qed.

(** X2. A successful [save] has put one row into the table, under an
    identifier that was free, and the row carries the strings of the
    dictionary: a string under "message_id", "session_id", "content" or
    "sender" is the value of that column, None under one of the last three
    is NULL, and a timestamp or processed_at that is absent is NULL. *)
Theorem save_stores_the_dictionary `{DatetimeLib} (d : dict)
    (db db' : Session) (row : MessageORM) :
  save d db = (inr row, db') ->
  db !! message_id row = None
  /\ db' = <[message_id row := row]> db
  /\ (forall s, d !! "message_id" = Some (VStr s) -> message_id row = s)
  /\ (forall s, d !! "session_id" = Some (VStr s) -> session_id row = Some s)
  /\ (forall s, d !! "content" = Some (VStr s) -> content row = Some s)
  /\ (forall s, d !! "sender" = Some (VStr s) -> sender row = Some s)
  /\ (d !! "session_id" = Some VNone -> session_id row = None)
  /\ (d !! "content" = Some VNone -> content row = None)
  /\ (d !! "sender" = Some VNone -> sender row = None)
  /\ (d !! "timestamp" = None -> timestamp row = None)
  /\ (d !! "processed_at" = None -> processed_at row = None).
Proof.
  intros Hsave.
  destruct (save_inversion d db db' row Hsave)
    as (Hfree & Hdb & (vm & Hm & Em) & (vs & Hs & Es) & (vc & Hc & Ec)
        & (vn & Hn & En) & Hts & Hpa).
  unfold get in Hts, Hpa.
  split; [exact Hfree|]. split; [exact Hdb|].
  split.
  { intros s E. rewrite E in Hm. injection Hm as <-.
    apply bind_string_str in Em. congruence. }
  split.
  { intros s E. rewrite E in Hs. injection Hs as <-.
    apply bind_string_str in Es. exact Es. }
  split.
  { intros s E. rewrite E in Hc. injection Hc as <-.
    apply bind_string_str in Ec. exact Ec. }
  split.
  { intros s E. rewrite E in Hn. injection Hn as <-.
    apply bind_string_str in En. exact En. }
  split.
  { intros E. rewrite E in Hs. injection Hs as <-.
    apply bind_string_None in Es. exact Es. }
  split.
  { intros E. rewrite E in Hc. injection Hc as <-.
    apply bind_string_None in Ec. exact Ec. }
  split.
  { intros E. rewrite E in Hn. injection Hn as <-.
    apply bind_string_None in En. exact En. }
  split.
  - intros E. rewrite E in Hts. simpl in Hts. congruence.
  - intros E. rewrite E in Hpa. simpl in Hpa. congruence.
Qed.

Lemma save_stores_the_dictionary_witness :
  let d := <["sender" := VNone]> (model_dump (Sample.hola 5)) in
  let row := {| message_id := "m1"; session_id := Some "s1";
                content := Some "Hola tonto idiota"; timestamp := Some 5;
                sender := None; processed_at := None |} in
  @save Sample.lib d Sample.five = (inr row, <["m1" := row]> Sample.five)
  /\ Sample.five !! "m1" = None
  /\ session_id row = Some "s1"
  /\ content row = Some "Hola tonto idiota"
  /\ sender row = None
  /\ processed_at row = None.
Proof.
  intros d row.
  assert (@save Sample.lib d Sample.five
            = (inr row, <["m1" := row]> Sample.five)) as Hsave
    by (vm_compute; reflexivity).
  destruct (@save_stores_the_dictionary Sample.lib d Sample.five
              (<["m1" := row]> Sample.five) row Hsave)
    as (Hfree & _ & _ & Hs & Hc & _ & _ & _ & Hn & _ & Hpa).
  split; [exact Hsave|]. split; [exact Hfree|].
  split; [apply Hs; reflexivity|]. split; [apply Hc; reflexivity|].
  split; [apply Hn; reflexivity|]. apply Hpa. reflexivity.
Defined.

(** ** Rows and dictionaries *)

Lemma parse_printed `{DatetimeLib} (o : option datetime) :
  Notions.reads_back o ->
  _parse_iso_to_dt (iso_or_none o) = inr o.
Proof.
  destruct o as [t|]; [|reflexivity]. intros [Hread Hz].
  simpl. rewrite Hz, Hread. reflexivity.
Qed.

(** X4. [to_dict] and [save] are inverse to each other as far as the
    datetime library is: when the library reads back what it prints for the
    row's timestamp and processed_at, saving the dictionary of a row under
    a free identifier stores and returns that very row. *)
Theorem save_to_dict_round_trip `{DatetimeLib} (row : MessageORM)
    (db : Session) :
  Notions.reads_back (timestamp row) ->
  Notions.reads_back (processed_at row) ->
  db !! message_id row = None ->
  save (to_dict row) db = (inr row, <[message_id row := row]> db).
Proof.
  intros Hts Hpa Hfree.
  assert (to_dict row !! "timestamp" = Some (iso_or_none (timestamp row)))
    as Ets by reflexivity.
  assert (to_dict row !! "processed_at"
            = Some (iso_or_none (processed_at row))) as Epa by reflexivity.
  assert (to_dict row !! "message_id" = Some (VStr (message_id row)))
    as Emid by reflexivity.
  assert (to_dict row !! "session_id" = Some (str_or_none (session_id row)))
    as Esid by reflexivity.
  assert (to_dict row !! "content" = Some (str_or_none (content row)))
    as Ec by reflexivity.
  assert (to_dict row !! "sender" = Some (str_or_none (sender row)))
    as Esnd by reflexivity.
  unfold save, bind, lift, get, getitem, add_commit, refresh, bind_row.
  rewrite Ets, Epa, Emid, Esid, Ec, Esnd. simpl.
  rewrite !parse_printed by assumption.
  destruct row as [mid [sid|] [c|] ts [snd|] pa]; simpl in *;
    rewrite Hfree, lookup_insert_eq; reflexivity.
Qed.

Lemma save_to_dict_round_trip_witness :
  let row := {| message_id := "m1"; session_id := Some "s1";
                content := None; timestamp := Some 1758637800;
                sender := Some "user"; processed_at := None |} in
  @save Sample.lib (@to_dict Sample.lib row) Sample.five
    = (inr row, <[message_id row := row]> Sample.five).
Proof.
  intros row. apply (@save_to_dict_round_trip Sample.lib row Sample.five).
  - split; reflexivity.
  - exact I.
  - reflexivity.
Defined.

(** ** What the queries return *)

Lemma elem_of_rows (db : Session) (r : MessageORM) :
  r ∈ rows db <-> exists k, db !! k = Some r.
Proof.
  unfold rows. rewrite list_elem_of_fmap. split.
  - intros ([k r'] & -> & Hin). exists k. apply elem_of_map_to_list, Hin.
  - intros (k & Hk). exists (k, r). split; [reflexivity|].
    apply elem_of_map_to_list, Hk.
Qed.

Lemma elem_of_page (L O : Z) (q : list MessageORM) (r : MessageORM) :
  r ∈ sql_limit L (sql_offset O q) -> r ∈ q.
Proof.
  rewrite sql_limit_take, sql_offset_drop. intros Hin.
  apply (subseteq_drop (Z.to_nat O)).
  destruct (L <? 0); [assumption|].
  apply (subseteq_take (Z.to_nat L)), Hin.
Qed.

Lemma page_whole (L : Z) (q : list MessageORM) :
  Z.of_nat (length q) <= L -> sql_limit L (sql_offset 0 q) = q.
Proof.
  intros HL. rewrite sql_limit_take, sql_offset_drop. simpl.
  destruct (L <? 0) eqn:E; [reflexivity|]. apply take_ge. lia.
Qed.

Lemma elem_of_order_by (q : list MessageORM) (r : MessageORM) :
  r ∈ order_by_timestamp q <-> r ∈ q.
Proof.
  unfold order_by_timestamp. rewrite merge_sort_Permutation. reflexivity.
Qed.

Lemma get_by_session_returns (session_id : string) (limit offset : Z)
    (sender : option string) (db : Session) (results : list MessageORM) :
  fst (get_by_session session_id limit offset sender db) = inr results ->
  - 2 ^ 63 <= limit < 2 ^ 63 /\ - 2 ^ 63 <= offset < 2 ^ 63.
Proof.
  unfold get_by_session. simpl. intros Hres.
  apply offset_limit_all_inr in Hres. tauto.
Qed.

Lemma truthy_sender (sender : option string) :
  truthy sender = true -> exists s, sender = Some s /\ s <> "".
Proof.
  destruct sender as [s|]; [|discriminate]. simpl.
  destruct (String.eqb_spec s ""); [discriminate|eauto].
Qed.

(** X5. Whatever the limit and the offset, negative ones included, a row
    that [get_by_session] returns is a row of the table, belongs to the
    session asked for and, when a sender that is not empty is given, to
    that sender. *)
Theorem get_by_session_returns_only_listed_rows (session_id : string)
    (limit offset : Z) (sender : option string) (db : Session)
    (results : list MessageORM) (r : MessageORM) :
  fst (get_by_session session_id limit offset sender db) = inr results ->
  r ∈ results ->
  (exists k, db !! k = Some r)
  /\ Models.session_id r = Some session_id
  /\ (forall s, sender = Some s -> s <> "" -> Models.sender r = Some s).
Proof.
  unfold get_by_session. simpl. intros Hres Hin.
  apply offset_limit_all_inr in Hres as (-> & _ & _).
  apply elem_of_page in Hin. rewrite elem_of_order_by in Hin.
  destruct (truthy sender) eqn:Et.
  - apply list_elem_of_filter in Hin as [Hs Hin].
    apply list_elem_of_filter in Hin as [Hsid Hin].
    apply elem_of_rows in Hin. repeat split; try assumption.
    intros s -> _. exact Hs.
  - apply list_elem_of_filter in Hin as [Hsid Hin].
    apply elem_of_rows in Hin. repeat split; try assumption.
    intros s -> Hne. simpl in Et.
    destruct (String.eqb_spec s ""); [contradiction|discriminate].
Qed.

Lemma get_by_session_returns_only_listed_rows_witness :
  let r := Sample.row "b" "p" 20 "system" "msg 1" in
  (exists k, Sample.five !! k = Some r)
  /\ Models.session_id r = Some "p"
  /\ (forall s, Some "system" = Some s -> s <> "" -> Models.sender r = Some s).
Proof.
  intros r.
  apply (get_by_session_returns_only_listed_rows "p" (-1) (-3) (Some "system")
           Sample.five
           [Sample.row "b" "p" 20 "system" "msg 1";
            Sample.row "c" "p" 30 "system" "msg 2"] r).
  - vm_compute. reflexivity.
  - apply list_elem_of_here.
Defined.

Lemma rows_NoDup (db : Session) : Notions.keyed db -> NoDup (rows db).
Proof.
  intros Hk. unfold rows. apply NoDup_fmap_2_strong; [|apply NoDup_map_to_list].
  intros [k1 r1] [k2 r2] H1%elem_of_map_to_list H2%elem_of_map_to_list.
  simpl. intros <-. f_equal.
  rewrite <- (Hk _ _ H1), <- (Hk _ _ H2). reflexivity.
Qed.

Lemma length_rows (db : Session) : length (rows db) = size db.
Proof. unfold rows. rewrite length_fmap. apply length_map_to_list. Qed.

(** X6. With the offset 0 and a limit that is at least the number of rows
    of the table, [get_by_session] returns every row of the session (of
    the sender, when one that is not empty is given) and nothing else; in a
    table whose rows sit under their own identifiers, it returns no row
    twice. *)
Theorem get_by_session_returns_every_listed_row (session_id : string)
    (limit : Z) (sender : option string) (db : Session)
    (results : list MessageORM) :
  Notions.keyed db ->
  Z.of_nat (size db) <= limit ->
  fst (get_by_session session_id limit 0 sender db) = inr results ->
  NoDup results
  /\ forall r,
       r ∈ results
       <-> (exists k, db !! k = Some r) /\ Spec.listed session_id sender r.
Proof.
  intros Hk HL Hres.
  destruct (get_by_session_returns _ _ _ _ _ _ Hres) as [HL' _].
  revert Hres. rewrite get_by_session_listed by lia. simpl. intros [= <-].
  unfold Spec.slice, Spec.ordered.
  set (q := filter (Spec.listed session_id sender) (rows db)).
  assert (length q <= size db)%nat as Hlen.
  { unfold q. rewrite <- length_rows. apply length_filter. }
  change (drop (Z.to_nat 0) (merge_sort by_timestamp q))
    with (merge_sort by_timestamp q).
  rewrite take_ge
    by (rewrite (Permutation_length (merge_sort_Permutation _ q)); lia).
  split.
  - rewrite merge_sort_Permutation. apply NoDup_filter, rows_NoDup, Hk.
  - intros r. rewrite merge_sort_Permutation. unfold q.
    rewrite list_elem_of_filter, elem_of_rows. tauto.
Qed.

Lemma keyed_five : Notions.keyed Sample.five.
Proof.
  intros k r Hk%elem_of_map_to_list.
  assert (Forall (fun kr => message_id kr.2 = kr.1) (map_to_list Sample.five))
    as Hf by (vm_compute; repeat constructor).
  rewrite Forall_forall in Hf. exact (Hf (k, r) Hk).
Qed.

Lemma get_by_session_returns_every_listed_row_witness :
  let results :=
    [Sample.row "a" "p" 10 "user" "msg 0";
     Sample.row "d" "p" 40 "user" "msg 3";
     Sample.row "e" "p" 50 "user" "msg 4"] in
  NoDup results
  /\ forall r,
       r ∈ results
       <-> (exists k, Sample.five !! k = Some r)
           /\ Spec.listed "p" (Some "user") r.
Proof.
  intros results.
  apply (get_by_session_returns_every_listed_row "p" 6 (Some "user")
           Sample.five results).
  - exact keyed_five.
  - vm_compute. discriminate.
  - vm_compute. reflexivity.
Defined.

Lemma page_tile (L1 L2 O : Z) (q : list MessageORM) :
  0 <= L1 -> 0 <= L2 -> 0 <= O ->
  (sql_limit L1 (sql_offset O q) ++ sql_limit L2 (sql_offset (O + L1) q))%list
    = sql_limit (L1 + L2) (sql_offset O q).
Proof.
  intros H1 H2 HO. rewrite !sql_limit_take, !sql_offset_drop.
  destruct (L1 <? 0) eqn:E1; [apply Z.ltb_lt in E1; lia|].
  destruct (L2 <? 0) eqn:E2; [apply Z.ltb_lt in E2; lia|].
  destruct (L1 + L2 <? 0) eqn:E3; [apply Z.ltb_lt in E3; lia|].
  rewrite !Z2Nat.inj_add by lia. rewrite <- drop_drop. apply take_take_drop.
Qed.

(** X7. Consecutive pages tile the sequence. For limits L1, L2 >= 0 and
    an offset O >= 0, with L1 + L2 and O + L1 below 2^63, the listing
    returns the page of L1 rows at O, the page of L2 rows at O + L1 and
    the page of L1 + L2 rows at O, and the third is the first followed by
    the second. The same holds of the pages of a search whenever the three
    calls return. *)
Theorem consecutive_pages_tile (session_id query : string) (L1 L2 O : Z)
    (sender : option string) (db : Session) :
  0 <= L1 -> 0 <= L2 -> 0 <= O -> L1 + L2 < 2 ^ 63 -> O + L1 < 2 ^ 63 ->
  (exists p1 p2,
     fst (get_by_session session_id L1 O sender db) = inr p1
     /\ fst (get_by_session session_id L2 (O + L1) sender db) = inr p2
     /\ fst (get_by_session session_id (L1 + L2) O sender db)
          = inr (p1 ++ p2)%list)
  /\ (forall p1 p2 p,
        fst (Repositories.search_messages session_id query L1 O db) = inr p1 ->
        fst (Repositories.search_messages session_id query L2 (O + L1) db)
          = inr p2 ->
        fst (Repositories.search_messages session_id query (L1 + L2) O db)
          = inr p ->
        p = (p1 ++ p2)%list).
Proof.
  intros H1 H2 HO H12 HO1. split.
  - unfold get_by_session. simpl.
    rewrite !offset_limit_all_in_range by lia. eexists _, _.
    split; [reflexivity|]. split; [reflexivity|].
    rewrite page_tile by assumption. reflexivity.
  - intros p1 p2 p E1 E2 E.
    apply search_messages_inr in E1, E2, E. subst p1 p2 p.
    rewrite page_tile by assumption. reflexivity.
Qed.

Lemma consecutive_pages_tile_witness :
  let b := Sample.row "b" "p" 20 "system" "msg 1" in
  let c := Sample.row "c" "p" 30 "system" "msg 2" in
  let d := Sample.row "d" "p" 40 "user" "msg 3" in
  (exists p1 p2,
     fst (get_by_session "p" 2 1 None Sample.five) = inr p1
     /\ fst (get_by_session "p" 1 (1 + 2) None Sample.five) = inr p2
     /\ fst (get_by_session "p" (2 + 1) 1 None Sample.five)
          = inr (p1 ++ p2)%list)
  /\ fst (Repositories.search_messages "p" "msg" 2 1 Sample.five) = inr [b; c]
  /\ fst (Repositories.search_messages "p" "msg" 1 (1 + 2) Sample.five)
       = inr [d]
  /\ fst (Repositories.search_messages "p" "msg" (2 + 1) 1 Sample.five)
       = inr [b; c; d]
  /\ [b; c; d] = ([b; c] ++ [d])%list.
Proof.
  intros b c d.
  destruct (consecutive_pages_tile "p" "msg" 2 1 1 None Sample.five)
    as [Hlist Hsearch]; try lia.
  assert (fst (Repositories.search_messages "p" "msg" 2 1 Sample.five)
            = inr [b; c]) as E1 by (vm_compute; reflexivity).
  assert (fst (Repositories.search_messages "p" "msg" 1 (1 + 2) Sample.five)
            = inr [d]) as E2 by (vm_compute; reflexivity).
  assert (fst (Repositories.search_messages "p" "msg" (2 + 1) 1 Sample.five)
            = inr [b; c; d]) as E by (vm_compute; reflexivity).
  split; [exact Hlist|]. split; [exact E1|]. split; [exact E2|].
  split; [exact E|]. exact (Hsearch _ _ _ E1 E2 E).
Defined.

Lemma listed_row_is_returned (session_id : string) (limit : Z)
    (sender : option string) (db : Session) (r : MessageORM) :
  Z.of_nat (size db) <= limit < 2 ^ 63 ->
  (exists k, db !! k = Some r) ->
  Spec.listed session_id sender r ->
  exists results,
    fst (get_by_session session_id limit 0 sender db) = inr results
    /\ r ∈ results.
Proof.
  intros HL Hin Hlisted. rewrite get_by_session_listed by lia. simpl.
  eexists. split; [reflexivity|].
  unfold Spec.slice, Spec.ordered.
  set (q := filter (Spec.listed session_id sender) (rows db)).
  assert (length q <= size db)%nat as Hlen.
  { unfold q. rewrite <- length_rows. apply length_filter. }
  change (drop (Z.to_nat 0) (merge_sort by_timestamp q))
    with (merge_sort by_timestamp q).
  rewrite take_ge
    by (rewrite (Permutation_length (merge_sort_Permutation _ q)); lia).
  rewrite merge_sort_Permutation. unfold q.
  apply list_elem_of_filter. split; [assumption|]. apply elem_of_rows, Hin.
Qed.

(** X8. A message saved through the service under a free identifier is
    there to be read: listing its session, without a sender or with the
    sender of the message, from offset 0 and with a limit above the number
    of rows and below 2^63, returns the stored row. *)
Theorem saved_message_is_listed `{DatetimeLib} (now : datetime)
    (m : MessageIn) (db : Session) (limit : Z) (sender : option string) :
  db !! in_message_id m = None ->
  Z.of_nat (size db) < limit < 2 ^ 63 ->
  sender = None \/ sender = Some (in_sender m) ->
  exists row db' results,
    save_message MessageRepository now (Model m) db = (inr row, db')
    /\ fst (get_messages MessageRepository (in_session_id m) limit 0 sender
              db') = inr results
    /\ row ∈ results.
Proof.
  intros Hfree HL Hsender. rewrite save_message_model, Hfree.
  eexists _, _.
  match goal with
  | |- exists results, (inr ?r, ?d) = _ /\ _ =>
      destruct (listed_row_is_returned (in_session_id m) limit sender d r)
        as (results & E & Hin)
  end.
  - rewrite map_size_insert_None by assumption. lia.
  - exists (in_message_id m). apply lookup_insert_eq.
  - split; [reflexivity|]. simpl.
    destruct Hsender as [-> | ->]; [exact I|]. right. reflexivity.
  - exists results. split; [reflexivity|]. split; assumption.
Qed.

Lemma saved_message_is_listed_witness :
  exists row db' results,
    save_message (@MessageRepository Sample.lib) 7 (Model (Sample.hola 5))
      Sample.five = (inr row, db')
    /\ fst (get_messages (@MessageRepository Sample.lib) "s1" 10 0
              (Some "user") db') = inr results
    /\ row ∈ results.
Proof.
  apply (@saved_message_is_listed Sample.lib 7 (Sample.hola 5) Sample.five 10
           (Some "user")).
  - reflexivity.
  - vm_compute. split; reflexivity.
  - right. reflexivity.
Defined.

(** ** What a search matches *)

Lemma ilike_pattern (column : option string) (query : string) :
  ilike column ("%" ++ query ++ "%")
    = match column with
      | Some text => like ("%" ++ sql_lower query ++ "%") (sql_lower text)
      | None => false
      end.
Proof.
  destruct column as [text|]; [|reflexivity]. unfold ilike.
  change ("%" ++ query ++ "%") with (String "%" "" ++ query ++ "%").
  rewrite !sql_lower_append. reflexivity.
Qed.

(** X9. The search does not see the case of the letters A-Z in the query:
    two queries that differ in nothing else return the same rows, in the
    same order, on every table. *)
Theorem search_ignores_the_case_of_the_query (session_id q q' : string)
    (limit offset : Z) (db : Session) :
  sql_lower q = sql_lower q' ->
  Repositories.search_messages session_id q limit offset db
    = Repositories.search_messages session_id q' limit offset db.
Proof.
  intros E. unfold Repositories.search_messages.
  assert (like_too_complex ("%" ++ q ++ "%")
            = like_too_complex ("%" ++ q' ++ "%")) as ->.
  { unfold like_too_complex.
    change ("%" ++ q ++ "%") with (String "%" "" ++ q ++ "%").
    change ("%" ++ q' ++ "%") with (String "%" "" ++ q' ++ "%").
    rewrite !sql_lower_append, E. reflexivity. }
  match goal with
  | |- match offset_limit_all _ _ (order_by_timestamp ?a) with _ => _ end
       = match offset_limit_all _ _ (order_by_timestamp ?b) with _ => _ end =>
      assert (a = b) as ->; [|reflexivity]
  end.
  apply list_filter_iff. intros r. rewrite !ilike_pattern, E. reflexivity.
Qed.

Lemma search_ignores_the_case_of_the_query_witness :
  Repositories.search_messages "case-sess" "texto" 10 0 Sample.prueba
    = Repositories.search_messages "case-sess" "TeXTO" 10 0 Sample.prueba.
Proof.
  apply (search_ignores_the_case_of_the_query "case-sess" "texto" "TeXTO" 10 0
           Sample.prueba).
  reflexivity.
Defined.

Lemma like_substring (query text : string) :
  Notions.nul_free query ->
  Str.contains query "%" = false -> Str.contains query "_" = false ->
  like ("%" ++ sql_lower query ++ "%") (sql_lower text)
    = Spec.icontains (c_string text) query.
Proof.
  intros Hz Hp Hu.
  rewrite like_contains
    by (rewrite ?sql_lower_percent, ?sql_lower_underscore;
        eauto using sql_lower_nul_free).
  rewrite c_string_sql_lower. reflexivity.
Qed.

(** X10. Whatever the limit and the offset, a row that the search returns
    is a row of the table, belongs to the session asked for and has a
    content (a NULL content is never found) that the pattern matches, both
    read up to their first U+0000. For a query without %, _ and U+0000
    that is to say: the content, up to its first U+0000, holds the query
    as a substring, the case of A-Z set aside. *)
Theorem search_returns_only_matching_rows (session_id query : string)
    (limit offset : Z) (db : Session) (results : list MessageORM)
    (r : MessageORM) :
  fst (Repositories.search_messages session_id query limit offset db)
    = inr results ->
  r ∈ results ->
  (exists k, db !! k = Some r)
  /\ Models.session_id r = Some session_id
  /\ exists text,
       Models.content r = Some text
       /\ like ("%" ++ sql_lower query ++ "%") (sql_lower text) = true
       /\ (Notions.nul_free query ->
           Str.contains query "%" = false -> Str.contains query "_" = false ->
           Spec.icontains (c_string text) query = true).
Proof.
  intros Hres Hin. apply search_messages_inr in Hres. subst results.
  apply elem_of_page in Hin. rewrite elem_of_order_by in Hin.
  apply list_elem_of_filter in Hin as [[Hsid Hlike] Hin].
  apply elem_of_rows in Hin. rewrite ilike_pattern in Hlike.
  split; [assumption|]. split; [assumption|].
  destruct (Models.content r) as [text|]; [|discriminate].
  exists text. split; [reflexivity|]. split; [assumption|].
  intros Hz Hp Hu. rewrite <- like_substring by assumption. exact Hlike.
Qed.

Lemma search_returns_only_matching_rows_witness :
  let r := Sample.row "d" "p" 40 "user" "msg 3" in
  (exists k, Sample.five !! k = Some r)
  /\ Models.session_id r = Some "p"
  /\ exists text,
       Models.content r = Some text
       /\ like ("%" ++ sql_lower "SG 3" ++ "%") (sql_lower text) = true
       /\ (Notions.nul_free "SG 3" ->
           Str.contains "SG 3" "%" = false -> Str.contains "SG 3" "_" = false ->
           Spec.icontains (c_string text) "SG 3" = true).
Proof.
  intros r.
  apply (search_returns_only_matching_rows "p" "SG 3" (-1) 0 Sample.five [r] r).
  - vm_compute. reflexivity.
  - apply list_elem_of_here.
Defined.

Lemma pattern_compare_starts (q t : string) :
  Str.startswith t q = true -> pattern_compare (q ++ "%") t = true.
Proof.
  revert t. induction q as [|a q IH]; intros t H.
  - apply pattern_compare_only_percent.
  - destruct t as [|b t]; [discriminate|]. simpl in H.
    apply andb_true_iff in H as [Hab H]. apply Ascii.eqb_eq in Hab. subst b.
    specialize (IH t H). rewrite append_cons.
    destruct (Ascii.eqb a "%") eqn:E.
    + apply Ascii.eqb_eq in E. subst a.
      rewrite pattern_compare_percent. apply orb_true_iff. right.
      rewrite pattern_compare_percent, IH. reflexivity.
    + cbn [pattern_compare]. rewrite E, Ascii.eqb_refl, orb_true_r. exact IH.
Qed.

Lemma pattern_compare_anywhere (q t : string) :
  Str.contains t q = true -> pattern_compare ("%" ++ q ++ "%") t = true.
Proof.
  rewrite append_cons, append_nil_l.
  induction t as [|c t IH]; cbn [Str.contains]; intros H;
    rewrite pattern_compare_percent; apply orb_true_iff.
  - rewrite orb_false_r in H. left. apply pattern_compare_starts, H.
  - apply orb_true_iff in H as [H|H]; [left|right; apply IH, H].
    apply pattern_compare_starts, H.
Qed.

Lemma like_anywhere (q t : string) :
  Notions.nul_free q ->
  Str.contains (c_string t) q = true -> like ("%" ++ q ++ "%") t = true.
Proof.
  intros Hq Hsub. unfold like.
  change ("%" ++ q ++ "%") with (String "%" (q ++ "%")).
  cbn [c_string]. change (Ascii.eqb "%" "000") with false. cbv iota.
  rewrite c_string_append by assumption.
  change (c_string "%") with "%".
  change (String "%" (q ++ "%")) with ("%" ++ q ++ "%").
  apply pattern_compare_anywhere, Hsub.
Qed.

(** X11. The search misses nothing it can read: when the query holds no
    U+0000, a row of the session whose content, up to its first U+0000,
    holds the query as a substring (the case of A-Z set aside, and % and _
    in the query included) is among the rows returned, whenever the search
    returns with the offset 0 and a limit that is at least the number of
    rows of the table. *)
Theorem search_finds_every_substring (session_id query text : string)
    (limit : Z) (db : Session) (results : list MessageORM) (r : MessageORM) :
  Z.of_nat (size db) <= limit ->
  Notions.nul_free query ->
  (exists k, db !! k = Some r) ->
  Models.session_id r = Some session_id ->
  Models.content r = Some text ->
  Spec.icontains (c_string text) query = true ->
  fst (Repositories.search_messages session_id query limit 0 db)
    = inr results ->
  r ∈ results.
Proof.
  intros HL Hz Hin Hsid Hc Hsub Hres.
  apply search_messages_inr in Hres. subst results.
  match goal with
  | |- _ ∈ sql_limit _ (sql_offset _ (order_by_timestamp ?a)) => set (q := a)
  end.
  assert (length q <= size db)%nat as Hlen.
  { unfold q. rewrite <- length_rows. apply length_filter. }
  rewrite page_whole
    by (unfold order_by_timestamp;
        rewrite (Permutation_length (merge_sort_Permutation _ q)); lia).
  rewrite elem_of_order_by. unfold q.
  apply list_elem_of_filter. split; [|apply elem_of_rows, Hin].
  split; [assumption|]. rewrite ilike_pattern, Hc.
  apply like_anywhere; [apply sql_lower_nul_free, Hz|].
  rewrite c_string_sql_lower. exact Hsub.
Qed.

Lemma search_finds_every_substring_witness :
  let x := Sample.row "x" "q" 25 "user" "otra" in
  fst (Repositories.search_messages "q" "OTR" 6 0 Sample.five) = inr [x]
  /\ x ∈ [x].
Proof.
  intros x.
  assert (fst (Repositories.search_messages "q" "OTR" 6 0 Sample.five)
            = inr [x]) as E by (vm_compute; reflexivity).
  split; [exact E|].
  apply (search_finds_every_substring "q" "OTR" "otra" 6 Sample.five [x] x).
  - vm_compute. discriminate.
  - reflexivity.
  - exists "x". reflexivity.
  - reflexivity.
  - reflexivity.
  - reflexivity.
  - exact E.
Defined.

(** ** What the processor leaves alone *)

(** X12. [process_message] works on a copy: every key of the message other
    than content, metadata and processed_at comes out with the value it
    went in with, processed_at is the reading of the clock, and the keys
    of the result are those of the message and these three. *)
Theorem process_message_keeps_the_other_keys (words : list string)
    (now : datetime) (message : message) (processed : dict) :
  process_message_in words now message = inr processed ->
  (forall k, k <> "content" -> k <> "metadata" -> k <> "processed_at" ->
     processed !! k = _ensure_dict message !! k)
  /\ processed !! "processed_at" = Some (VDatetime now)
  /\ dom processed
       = dom (_ensure_dict message)
         ∪ {[ "content"; "metadata"; "processed_at" ]}.
Proof.
  unfold process_message_in.
  destruct (default (VStr "") (_ensure_dict message !! "content"));
    try discriminate.
  intros [= <-]. split; [|split].
  - intros k H1 H2 H3. rewrite !lookup_insert_ne by congruence. reflexivity.
  - apply lookup_insert_eq.
  - rewrite !dom_insert_L. apply set_eq. intros k.
    rewrite !elem_of_union, !elem_of_singleton. tauto.
Qed.

Lemma process_message_keeps_the_other_keys_witness :
  exists processed,
    process_message 7 (Model (Sample.hola 5)) = inr processed
    /\ (forall k, k <> "content" -> k <> "metadata" -> k <> "processed_at" ->
          processed !! k = model_dump (Sample.hola 5) !! k)
    /\ processed !! "processed_at" = Some (VDatetime 7)
    /\ dom processed
         = dom (model_dump (Sample.hola 5))
           ∪ {[ "content"; "metadata"; "processed_at" ]}.
Proof.
  eexists. split; [apply scenario_processed|].
  apply (process_message_keeps_the_other_keys (elements bad_words) 7
           (Model (Sample.hola 5))).
  apply scenario_processed.
Defined.

Lemma metadata_of_nothing : metadata (elements bad_words) "" =
  {| Metadata.length := 0; Metadata.bad_words := [] |}.
Proof. vm_compute. reflexivity. Qed.

(** X13. A dictionary without a content is processed as the empty text:
    content "", length 0, no bad words. A content that is not a string
    makes [process_message] raise TypeError, and [save_message] then
    raises it too without reaching the repository, whichever it is. *)
Theorem process_message_without_text {S} (repository : Repository S)
    (now : datetime) (d : dict) (st : S) :
  (d !! "content" = None ->
     process_message now (Dict d)
       = inr (<["processed_at" := VDatetime now]>
              (<["metadata" :=
                   VMetadata {| Metadata.length := 0;
                                Metadata.bad_words := [] |}]>
              (<["content" := VStr ""]> d))))
  /\ (forall v, d !! "content" = Some v -> (forall s, v <> VStr s) ->
        process_message now (Dict d) = inl TypeError
        /\ save_message repository now (Dict d) st = (inl TypeError, st)).
Proof.
  split.
  - intros E. unfold process_message, process_message_in. simpl. rewrite E.
    simpl. rewrite metadata_of_nothing. reflexivity.
  - intros v E Hv.
    assert (process_message now (Dict d) = inl TypeError) as Ep.
    { unfold process_message, process_message_in. simpl. rewrite E. simpl.
      destruct v; try reflexivity. destruct (Hv s eq_refl). }
    split; [exact Ep|].
    unfold save_message, bind, lift. simpl _ensure_dict. rewrite Ep.
    reflexivity.
Qed.

Lemma process_message_without_text_witness :
  let d := delete "content" (model_dump (Sample.hola 5)) in
  let d' := <["content" := VNone]> d in
  process_message 7 (Dict d)
    = inr (<["processed_at" := VDatetime 7]>
           (<["metadata" :=
                VMetadata {| Metadata.length := 0;
                             Metadata.bad_words := [] |}]>
           (<["content" := VStr ""]> d)))
  /\ process_message 7 (Dict d') = inl TypeError
  /\ save_message (@MessageRepository Sample.lib) 7 (Dict d') Sample.five
       = (inl TypeError, Sample.five).
Proof.
  intros d d'. split.
  - apply (proj1 (process_message_without_text (@MessageRepository Sample.lib)
                    7 d Sample.five)).
    reflexivity.
  - apply (proj2 (process_message_without_text (@MessageRepository Sample.lib)
                    7 d' Sample.five) VNone).
    + reflexivity.
    + discriminate.
Defined.

(** ** Censoring once and censoring again *)

Section reprocessing.
Import Str Re Spec Notions.

Lemma length_append (a b : string) :
  String.length (a ++ b) = (String.length a + String.length b)%nat.
Proof.
  induction a as [|c a IH]; [reflexivity|].
  rewrite append_cons. simpl. rewrite IH. reflexivity.
Qed.

Lemma append_nil_r (s : string) : s ++ "" = s.
Proof.
  induction s as [|c s IH]; [reflexivity|].
  rewrite append_cons, IH. reflexivity.
Qed.

Lemma text_cons (t : token) (ts : list token) :
  text (t :: ts) = token_text t ++ text ts.
Proof. reflexivity. Qed.

Lemma text_app (l1 l2 : list token) :
  text (l1 ++ l2)%list = text l1 ++ text l2.
Proof.
  induction l1 as [|t l1 IH]; [reflexivity|].
  rewrite <- app_comm_cons, !text_cons, IH. symmetry. apply append_assoc.
Qed.

Lemma forbidden_length (w : string) :
  forbidden w -> (3 < String.length w)%nat.
Proof.
  unfold forbidden. intros Hin. apply elem_of_bad_words in Hin.
  rewrite <- length_lower. destruct Hin as [-> | ->]; simpl; lia.
Qed.

(** The censored text spelled by tokens. *)
Lemma censor_masked (ts : list token) :
  foldr String.append "" (censor_token <$> ts) = text (masked ts).
Proof.
  induction ts as [|t ts IH]; [reflexivity|].
  unfold masked. rewrite bind_cons. fold (masked ts).
  rewrite text_app, <- IH. cbn [fmap list_fmap foldr]. f_equal.
  destruct t as [w|c]; simpl; [|reflexivity].
  destruct (decide (forbidden w)); [reflexivity|].
  symmetry. apply append_nil_r.
Qed.

Lemma censor_clean (ts : list token) :
  clean ts -> foldr String.append "" (censor_token <$> ts) = text ts.
Proof.
  induction 1 as [|t ts Ht _ IH]; [reflexivity|].
  cbn [fmap list_fmap foldr]. rewrite text_cons. fold (censor_token <$> ts).
  rewrite IH. f_equal. destruct t as [w|c]; simpl; [|reflexivity].
  destruct (decide (forbidden w)); [contradiction|reflexivity].
Qed.

Lemma length_censor (ts : list token) :
  (String.length (foldr String.append "" (censor_token <$> ts))
     <= String.length (text ts))%nat
  /\ (~ clean ts ->
      (String.length (foldr String.append "" (censor_token <$> ts))
         < String.length (text ts))%nat).
Proof.
  induction ts as [|t ts [IH1 IH2]].
  - split; [reflexivity|]. intros H. destruct H. constructor.
  - cbn [fmap list_fmap foldr]. fold (censor_token <$> ts).
    rewrite text_cons, !length_append.
    destruct t as [w|c]; simpl token_text; simpl censor_token.
    + destruct (decide (forbidden w)) as [Hf|Hf].
      * apply forbidden_length in Hf. simpl String.length. split; intros; lia.
      * split; [lia|]. intros Hnc.
        assert (~ clean ts) as Hts; [|specialize (IH2 Hts); lia].
        intros Hc. apply Hnc. constructor; assumption.
    + split; [lia|]. intros Hnc.
      assert (~ clean ts) as Hts; [|specialize (IH2 Hts); lia].
      intros Hc. apply Hnc. constructor; [exact I|assumption].
Qed.

#[local] Instance clean_dec (ts : list token) : Decision (clean ts).
Proof.
  unfold clean. apply Forall_dec. intros [w|c]; apply _.
Defined.

Lemma censor_fixed_iff_clean (c : string) :
  censor c = c <-> clean (tokenize c).
Proof.
  unfold censor. split.
  - intros E. destruct (decide (clean (tokenize c))) as [|Hnc]; [assumption|].
    apply (proj2 (length_censor (tokenize c))) in Hnc.
    rewrite E, tokenize_text in Hnc. lia.
  - intros Hc. rewrite censor_clean by assumption. apply tokenize_text.
Qed.

Lemma found_empty_iff_clean (words : list string) (c : string) :
  words ≡ₚ elements bad_words ->
  found words c = ∅ <-> clean (tokenize c).
Proof.
  intros Hw. rewrite elem_of_equiv_empty_L. unfold clean.
  rewrite Forall_forall. split.
  - intros Hno [w|a] Hin; [|exact I]. intros Hf.
    apply (Hno (lower w)). apply (elem_of_found _ _ _ Hw). eauto.
  - intros Hc f Hf. apply (elem_of_found _ _ _ Hw) in Hf
      as (Hbad & w & Hin & <-).
    exact (Hc (Word w) Hin Hbad).
Qed.

Lemma bad_words_nil_iff (words : list string) (c : string) :
  Metadata.bad_words (metadata words c) = [] <-> found words c = ∅.
Proof.
  simpl. split.
  - intros E. apply leibniz_equiv, elements_empty_iff, Permutation_nil_r.
    rewrite <- (merge_sort_Permutation String.le), E. reflexivity.
  - intros ->. rewrite elements_empty. reflexivity.
Qed.

(** X14. Censoring never makes a text longer, and it leaves the text as
    it is exactly when the metadata lists no bad word. *)
Theorem censoring_shortens_or_keeps (words : list string) (c : string) :
  words ≡ₚ elements bad_words ->
  (String.length (censored words c) <= String.length c)%nat
  /\ (censored words c = c
      <-> Metadata.bad_words (metadata words c) = []).
Proof.
  intros Hw. rewrite (censored_censor _ _ Hw). split.
  - unfold censor.
    pose proof (proj1 (length_censor (tokenize c))) as H.
    rewrite tokenize_text in H. exact H.
  - rewrite bad_words_nil_iff, (found_empty_iff_clean _ _ Hw).
    apply censor_fixed_iff_clean.
Qed.

Lemma censoring_shortens_or_keeps_witness :
  (String.length (censored ["tonto"; "idiota"] "Hola tontos")
     <= String.length "Hola tontos")%nat
  /\ (censored ["tonto"; "idiota"] "Hola tontos" = "Hola tontos"
      <-> Metadata.bad_words (metadata ["tonto"; "idiota"] "Hola tontos") = []).
Proof.
  apply (censoring_shortens_or_keeps ["tonto"; "idiota"] "Hola tontos").
  rewrite elements_bad_words. apply perm_swap.
Defined.

Lemma tokenize_word_app (w : string) (ts : list token) :
  w <> "" -> all_word w = true ->
  match ts with Word _ :: _ => False | _ => True end ->
  tokenize (text ts) = ts ->
  tokenize (w ++ text ts) = Word w :: ts.
Proof.
  intros Hw0 Hw Hnext Hts. induction w as [|c w IH]; [congruence|].
  simpl in Hw. apply andb_true_iff in Hw as [Hc Hw].
  rewrite append_cons. cbn [tokenize]. rewrite Hc.
  destruct w as [|d w].
  - rewrite append_nil_l, Hts. destruct ts as [|[v|a] ts]; tauto.
  - rewrite IH by (discriminate || assumption). reflexivity.
Qed.

(** Tokens that are well cut are the tokens of the text they spell. *)
Lemma tokenize_of_text (ts : list token) :
  well_cut ts -> tokenize (text ts) = ts.
Proof.
  induction ts as [|[w|c] ts IH]; [reflexivity| |].
  - intros (Hw0 & Hw & Hnext & Hcut). rewrite text_cons.
    apply tokenize_word_app; auto.
  - intros (Hc & Hcut). rewrite text_cons. cbn [token_text].
    rewrite append_cons, append_nil_l. cbn [tokenize].
    rewrite Hc, IH by assumption.
    reflexivity.
Qed.

Lemma masked_well_cut (ts : list token) :
  well_cut ts -> well_cut (masked ts) /\ clean (masked ts)
  /\ (match ts with Word _ :: _ => False | _ => True end ->
      match masked ts with Word _ :: _ => False | _ => True end).
Proof.
  induction ts as [|[w|c] ts IH].
  - intros _. split; [exact I|]. split; [constructor|auto].
  - intros (Hw0 & Hw & Hnext & Hcut).
    destruct (IH Hcut) as (IHcut & IHclean & IHnext).
    unfold masked. rewrite bind_cons. fold (masked ts). cbv beta iota.
    destruct (decide (forbidden w)) as [Hf|Hf]; cbn [app].
    + split; [|split].
      * cbn [well_cut]. repeat (split; [reflexivity|]). exact IHcut.
      * repeat (constructor; [exact I|]). exact IHclean.
      * intros [].
    + split; [|split].
      * cbn [well_cut]. repeat split; try assumption. apply IHnext, Hnext.
      * constructor; assumption.
      * intros [].
  - intros (Hc & Hcut).
    destruct (IH Hcut) as (IHcut & IHclean & IHnext).
    unfold masked. rewrite bind_cons. fold (masked ts). cbv beta iota.
    cbn [app]. split; [|split].
    + split; assumption.
    + constructor; [exact I|assumption].
    + intros _. exact I.
Qed.

(** X15. Censoring is idempotent: a censored text is left as it is by a
    second censoring, and the metadata computed for it lists no bad word. *)
Theorem censoring_twice_is_censoring_once (words : list string) (c : string) :
  words ≡ₚ elements bad_words ->
  censored words (censored words c) = censored words c
  /\ Metadata.bad_words (metadata words (censored words c)) = [].
Proof.
  intros Hw. rewrite !(censored_censor _ _ Hw).
  destruct (masked_well_cut (tokenize c) (tokenize_well_cut c))
    as (Hcut & Hclean & _).
  assert (clean (tokenize (censor c))) as Hc.
  { unfold censor. rewrite censor_masked, tokenize_of_text; assumption. }
  split.
  - apply censor_fixed_iff_clean, Hc.
  - apply bad_words_nil_iff, (found_empty_iff_clean _ _ Hw), Hc.
Qed.

Lemma censoring_twice_is_censoring_once_witness :
  censored ["tonto"; "idiota"] (censored ["tonto"; "idiota"] "Hola Tonto!")
    = censored ["tonto"; "idiota"] "Hola Tonto!"
  /\ Metadata.bad_words
       (metadata ["tonto"; "idiota"]
          (censored ["tonto"; "idiota"] "Hola Tonto!")) = [].
Proof.
  apply (censoring_twice_is_censoring_once ["tonto"; "idiota"] "Hola Tonto!").
  rewrite elements_bad_words. apply perm_swap.
Defined.

End reprocessing.

(** The two cases of the service's guard. *)
Lemma search_messages_guard_cases {S} (repository : Repository S)
    (session_id query : string) (limit offset : Z) (st : S) :
  ((String.length (Str.strip query) < 2)%nat ->
     Services.search_messages repository session_id query limit offset st
       = (inl ValueError, st))
  /\ ((2 <= String.length (Str.strip query))%nat ->
     Services.search_messages repository session_id query limit offset st
       = repo_search_messages repository session_id query limit offset st).
Proof.
  unfold Services.search_messages. split; intros Hlen.
  - apply Nat.ltb_lt in Hlen. rewrite Hlen, orb_true_r. reflexivity.
  - destruct (String.eqb_spec query "") as [->|_]; [simpl in Hlen; lia|].
    apply Nat.ltb_ge in Hlen. rewrite Hlen. reflexivity.
Qed.

(** ** The requests *)

Lemma require_api_key_refuses (x_api_key : option string) :
  x_api_key <> Some EXPECTED_API_KEY ->
  require_api_key x_api_key
    = inl (HTTPException
             (match x_api_key with None => 401 | Some _ => 403 end)).
Proof.
  intros Hne. destruct x_api_key as [k|]; [|reflexivity]. simpl.
  destruct (String.eqb_spec k EXPECTED_API_KEY) as [->|_];
    [congruence|reflexivity].
Qed.



(** X17. A post with the expected key and a sender that is user or system
    has two outcomes. When the identifier is taken it answers 400 and
    leaves the table as it was. Otherwise it stores one row, with the
    content censored and processed_at set to the reading of the clock, and
    answers with the dictionary of that row. *)
Theorem post_message_outcome `{DatetimeLib} (now : datetime)
    (message_id session_id content : string) (timestamp : datetime)
    (sender : string) (db : Session) :
  sender = "user" \/ sender = "system" ->
  let row :=
    {| Models.message_id := message_id;
       Models.session_id := Some session_id;
       Models.content := Some (censored (elements bad_words) content);
       Models.timestamp := Some timestamp;
       Models.sender := Some sender;
       Models.processed_at := Some now |} in
  post_message now (Some EXPECTED_API_KEY) message_id session_id content
    timestamp sender db
  = match db !! message_id with
    | Some _ => (inl (HTTPException 400), db)
    | None => (inr (to_dict row), <[message_id := row]> db)
    end.
Proof.
  intros Hs row. unfold post_message, bind, lift, MessageIn_init,
    validate_sender. simpl.
  rewrite bool_decide_eq_true_2
    by (rewrite elem_of_union, !elem_of_singleton; tauto).
  unfold create_message, try_except, bind, ret.
  rewrite save_message_model. simpl in_message_id.
  destruct (db !! message_id); reflexivity.
Qed.

Lemma post_message_outcome_witness :
  @post_message Sample.lib 7 (Some EXPECTED_API_KEY) "a" "p" "Hola tonto" 5
    "system" Sample.five
  = match Sample.five !! "a" with
    | Some _ => (inl (HTTPException 400), Sample.five)
    | None =>
        (inr (@to_dict Sample.lib
                {| Models.message_id := "a"; Models.session_id := Some "p";
                   Models.content :=
                     Some (censored (elements bad_words) "Hola tonto");
                   Models.timestamp := Some 5;
                   Models.sender := Some "system";
                   Models.processed_at := Some 7 |}),
         <["a" := {| Models.message_id := "a"; Models.session_id := Some "p";
                     Models.content :=
                       Some (censored (elements bad_words) "Hola tonto");
                     Models.timestamp := Some 5;
                     Models.sender := Some "system";
                     Models.processed_at := Some 7 |}]> Sample.five)
    end.
Proof.
  apply (@post_message_outcome Sample.lib 7 "a" "p" "Hola tonto" 5 "system"
           Sample.five).
  right. reflexivity.
Defined.

Lemma length_lstrip (s : string) :
  (String.length (Str.lstrip s) <= String.length s)%nat.
Proof.
  induction s as [|c s IH]; [reflexivity|]. simpl.
  destruct (Str.isspace c); simpl; lia.
Qed.

Lemma length_rstrip (s : string) :
  (String.length (Str.rstrip s) <= String.length s)%nat.
Proof.
  induction s as [|c s IH]; [reflexivity|]. simpl.
  destruct (Str.rstrip s); [destruct (Str.isspace c)|]; simpl in *; lia.
Qed.

Lemma length_strip (s : string) :
  (String.length (Str.strip s) <= String.length s)%nat.
Proof.
  unfold Str.strip. pose proof (length_rstrip (Str.lstrip s)).
  pose proof (length_lstrip s). lia.
Qed.

(** X18. A query of fewer than two characters, stripped or not, makes the
    service's [search_messages] raise ValueError, whatever the repository,
    which is not reached. *)
Theorem short_query_is_refused {S} (repository : Repository S)
    (session_id query : string) (limit offset : Z) (st : S) :
  (String.length query < 2)%nat ->
  Services.search_messages repository session_id query limit offset st
    = (inl ValueError, st).
Proof.
  intros Hlen. unfold Services.search_messages.
  pose proof (length_strip query) as Hs.
  destruct (String.length (Str.strip query) <? 2)%nat eqn:E.
  - rewrite orb_true_r. reflexivity.
  - apply Nat.ltb_ge in E. lia.
Qed.

Lemma short_query_is_refused_witness :
  Services.search_messages (@MessageRepository Sample.lib) "sess" "a" 10 0
    Sample.five = (inl ValueError, Sample.five).
Proof.
  apply (short_query_is_refused (@MessageRepository Sample.lib) "sess" "a" 10 0
           Sample.five).
  vm_compute. lia.
Defined.

Lemma search_messages_store (session_id query : string) (limit offset : Z)
    (db : Session) :
  snd (Repositories.search_messages session_id query limit offset db) = db.
Proof.
  unfold Repositories.search_messages.
  destruct (offset_limit_all _ _ _); [reflexivity|].
  destruct (_ && _); reflexivity.
Qed.

(** X19. The search request checks the query twice. With the expected key,
    a query of fewer than two characters is refused by the parameter check
    (ValidationError); one of two or more characters that strips to fewer
    than two passes that check and is refused by the service, whose
    ValueError leaves the handler as it is; any other query goes to the
    repository's search, and the request is answered with the dictionaries
    of the rows when that returns and ends with its exception when that
    raises. The table is never changed. *)
Theorem search_request_checks `{DatetimeLib} (session_id q : string)
    (limit offset : Z) (db : Session) :
  let answer :=
    Endpoints.search_request (Some EXPECTED_API_KEY) session_id q limit offset
      db in
  ((String.length q < 2)%nat -> answer = (inl ValidationError, db))
  /\ ((2 <= String.length q)%nat -> (String.length (Str.strip q) < 2)%nat ->
      answer = (inl ValueError, db))
  /\ ((2 <= String.length (Str.strip q))%nat ->
      answer
        = match Repositories.search_messages session_id q limit offset db with
          | (inr results, _) => (inr (to_dict <$> results), db)
          | (inl e, _) => (inl e, db)
          end)
  /\ snd answer = db.
Proof.
  intros answer.
  pose proof (length_strip q) as Hstrip.
  assert ((String.length q < 2)%nat -> answer = (inl ValidationError, db))
    as Hshort.
  { intros Hlen. unfold answer, Endpoints.search_request,
      Endpoints.search_messages, Endpoints.min_length, bind, lift. simpl.
    apply Nat.ltb_lt in Hlen. rewrite Hlen. reflexivity. }
  assert ((2 <= String.length q)%nat ->
          (String.length (Str.strip q) < 2)%nat ->
          answer = (inl ValueError, db)) as Hblank.
  { intros Hlen Hs. unfold answer, Endpoints.search_request,
      Endpoints.search_messages, Endpoints.min_length, bind, lift. simpl.
    destruct (String.length q <? 2)%nat eqn:E;
      [apply Nat.ltb_lt in E; lia|].
    rewrite (proj1 (search_messages_guard_cases MessageRepository session_id q
                      limit offset db) Hs).
    reflexivity. }
  assert ((2 <= String.length (Str.strip q))%nat ->
          answer
            = match Repositories.search_messages session_id q limit offset db
              with
              | (inr results, _) => (inr (to_dict <$> results), db)
              | (inl e, _) => (inl e, db)
              end) as Hsearch.
  { intros Hs. unfold answer, Endpoints.search_request,
      Endpoints.search_messages, Endpoints.min_length, bind, lift. simpl.
    destruct (String.length q <? 2)%nat eqn:E;
      [apply Nat.ltb_lt in E; lia|].
    rewrite (proj2 (search_messages_guard_cases MessageRepository session_id q
                      limit offset db) Hs).
    simpl.
    pose proof (search_messages_store session_id q limit offset db) as Hdb.
    destruct (Repositories.search_messages session_id q limit offset db)
      as [[e|results] db'].
    - simpl in Hdb. subst db'. reflexivity.
    - simpl in Hdb. subst db'. reflexivity. }
  split; [exact Hshort|]. split; [exact Hblank|]. split; [exact Hsearch|].
  destruct (Nat.lt_ge_cases (String.length q) 2) as [Hlen|Hlen];
    [rewrite Hshort by assumption; reflexivity|].
  destruct (Nat.lt_ge_cases (String.length (Str.strip q)) 2) as [Hs|Hs];
    [rewrite Hblank by assumption; reflexivity|].
  rewrite Hsearch by assumption.
  destruct (Repositories.search_messages session_id q limit offset db)
    as [[e|results] db']; reflexivity.
Qed.

Lemma search_request_checks_witness :
  let d := Sample.row "d" "p" 40 "user" "msg 3" in
  @Endpoints.search_request Sample.lib (Some EXPECTED_API_KEY) "p" "m" 10 0
    Sample.five = (inl ValidationError, Sample.five)
  /\ @Endpoints.search_request Sample.lib (Some EXPECTED_API_KEY) "p" "  " 10 0
       Sample.five = (inl ValueError, Sample.five)
  /\ @Endpoints.search_request Sample.lib (Some EXPECTED_API_KEY) "p" "g 3" 10
       0 Sample.five
     = (inr [@to_dict Sample.lib d], Sample.five)
  /\ @Endpoints.search_request Sample.lib (Some EXPECTED_API_KEY) "p" "g 3" 10
       (2 ^ 63) Sample.five
     = (inl OverflowError, Sample.five).
Proof.
  intros d. split; [|split; [|split]].
  - apply (proj1 (@search_request_checks Sample.lib "p" "m" 10 0 Sample.five)).
    vm_compute. lia.
  - apply (proj1 (proj2 (@search_request_checks Sample.lib "p" "  " 10 0
                           Sample.five))).
    + vm_compute. lia.
    + vm_compute. lia.
  - rewrite (proj1 (proj2 (proj2 (@search_request_checks Sample.lib "p" "g 3"
                                    10 0 Sample.five))))
      by (vm_compute; lia).
    assert (Repositories.search_messages "p" "g 3" 10 0 Sample.five
              = (inr [d], Sample.five)) as -> by (vm_compute; reflexivity).
    reflexivity.
  - rewrite (proj1 (proj2 (proj2 (@search_request_checks Sample.lib "p" "g 3"
                                    10 (2 ^ 63) Sample.five))))
      by (vm_compute; lia).
    assert (Repositories.search_messages "p" "g 3" 10 (2 ^ 63) Sample.five
              = (inl OverflowError, Sample.five)) as ->
      by (vm_compute; reflexivity).
    reflexivity.
Defined.

(** X20. Every dictionary that the listing request returns is the
    dictionary of a row of the table; it bears the session asked for and
    has the six keys of a row. A request that returns anything carried the
    expected key. *)
Theorem get_request_returns_rows_of_the_session `{DatetimeLib}
    (x_api_key : option string) (session_id : string) (limit offset : Z)
    (sender : option string) (db : Session) (results : list dict) (d : dict) :
  fst (Endpoints.get_request x_api_key session_id limit offset sender db)
    = inr results ->
  d ∈ results ->
  x_api_key = Some EXPECTED_API_KEY
  /\ (exists k r, db !! k = Some r /\ d = to_dict r)
  /\ d !! "session_id" = Some (VStr session_id)
  /\ dom d = {[ "message_id"; "session_id"; "content"; "timestamp"; "sender";
                "processed_at" ]}.
Proof.
  unfold Endpoints.get_request, Endpoints.get_messages, get_messages, bind,
    lift, ret. simpl.
  destruct (decide (x_api_key = Some EXPECTED_API_KEY)) as [->|Hne];
    [|rewrite (require_api_key_refuses _ Hne); discriminate].
  simpl. unfold get_by_session.
  destruct (offset_limit_all _ _ _) as [e|page] eqn:Epage; [discriminate|].
  apply offset_limit_all_inr in Epage as (-> & _ & _).
  simpl. intros [= <-] Hin. split; [reflexivity|].
  apply list_elem_of_fmap in Hin as (r & -> & Hin).
  apply elem_of_page in Hin. rewrite elem_of_order_by in Hin.
  assert (r ∈ rows db /\ Models.session_id r = Some session_id) as [Hr Hsid].
  { destruct (truthy sender);
      repeat (apply list_elem_of_filter in Hin as [? Hin]); auto. }
  apply elem_of_rows in Hr as (k & Hk).
  split; [eauto|]. split.
  - unfold to_dict. rewrite !lookup_insert_ne, lookup_insert_eq by discriminate.
    rewrite Hsid. reflexivity.
  - unfold to_dict. rewrite !dom_insert_L, dom_empty_L. apply set_eq. intros x.
    rewrite !elem_of_union, !elem_of_singleton, elem_of_empty. tauto.
Qed.

Lemma get_request_returns_rows_of_the_session_witness :
  let d := @to_dict Sample.lib (Sample.row "x" "q" 25 "user" "otra") in
  Some EXPECTED_API_KEY = Some EXPECTED_API_KEY
  /\ (exists k r, Sample.five !! k = Some r /\ d = @to_dict Sample.lib r)
  /\ d !! "session_id" = Some (VStr "q")
  /\ dom d = {[ "message_id"; "session_id"; "content"; "timestamp"; "sender";
                "processed_at" ]}.
Proof.
  intros d.
  apply (@get_request_returns_rows_of_the_session Sample.lib
           (Some EXPECTED_API_KEY) "q" 10 0 None Sample.five [d] d).
  - vm_compute. reflexivity.
  - apply list_elem_of_here.
Defined.

(** ** The text handed to the ISO parser *)

Lemma contains_Z_append_offset (s : string) :
  Str.contains ("+00:00" ++ s) "Z" = Str.contains s "Z".
Proof.
  change ("+00:00" ++ s)
    with (String "+" (String "0" (String "0" (String ":" (String "0"
            (String "0" s)))))).
  rewrite !contains_cons_char. reflexivity.
Qed.

Lemma replace_leaves_no_Z (prev : option ascii) (s : string) :
  Str.contains
    (Str.substitute "+00:00" (Str.pieces (Str.find_literal "Z") prev s)) "Z"
    = false.
Proof.
  revert prev. induction s as [|c s IH]; intros prev; [reflexivity|].
  rewrite pieces_cons. unfold Str.find_literal at 1.
  rewrite startswith_char. destruct (Ascii.eqb "Z" c) eqn:E.
  - cbn [String.length Str.substitute Str.drop].
    rewrite contains_Z_append_offset. apply IH.
  - cbn [Str.substitute]. rewrite contains_cons_char, E. apply IH.
Qed.

Lemma no_Z_no_final_Z (s : string) :
  Str.contains s "Z" = false -> Str.endswith s "Z" = false.
Proof.
  induction s as [|c s IH]; [reflexivity|].
  rewrite contains_cons_char. intros [Hc Hs]%orb_false_iff.
  cbn [Str.endswith]. rewrite (IH Hs), orb_false_r.
  cbn [String.eqb]. rewrite Ascii.eqb_sym, Hc. reflexivity.
Qed.

(** X21. For a string that ends in Z, the text that reaches the ISO parser
    holds no Z at all, at the end or elsewhere: every Z has become +00:00.
    Parsing that text again gives the same result, so the rewriting is
    stable. *)
Theorem parse_hands_over_no_Z `{DatetimeLib} (s : string) :
  Str.endswith s "Z" = true ->
  let text := Str.replace "Z" "+00:00" s in
  Str.contains text "Z" = false
  /\ _parse_iso_to_dt (VStr s)
       = match fromisoformat text with
         | Some t => inr (Some t)
         | None => inl ValueError
         end
  /\ _parse_iso_to_dt (VStr text) = _parse_iso_to_dt (VStr s).
Proof.
  intros Hz text.
  assert (Str.contains text "Z" = false) as Hno
    by apply replace_leaves_no_Z.
  split; [exact Hno|]. unfold _parse_iso_to_dt.
  rewrite Hz. fold text. rewrite (no_Z_no_final_Z _ Hno). auto.
Qed.

Lemma parse_hands_over_no_Z_witness :
  let text := Str.replace "Z" "+00:00" "2025-09-23Z14:30:00Z" in
  Str.contains text "Z" = false
  /\ @_parse_iso_to_dt Sample.lib (VStr "2025-09-23Z14:30:00Z")
       = match @fromisoformat Sample.lib text with
         | Some t => inr (Some t)
         | None => inl ValueError
         end
  /\ @_parse_iso_to_dt Sample.lib (VStr text)
       = @_parse_iso_to_dt Sample.lib (VStr "2025-09-23Z14:30:00Z").
Proof.
  apply (@parse_hands_over_no_Z Sample.lib "2025-09-23Z14:30:00Z").
  reflexivity.
Defined.
